(** * humanlog: a human-readable [slog.Handler]

    A shallow embedding of the formatting handler of
    [github.com/lepinkainen/humanlog] (handler.go, humanlog.go, options.go)
    and of the earlier revision of the same handler that the repository
    also carries, together with the properties of the handler that the
    specification states.

    Go strings are byte strings: they are modelled by [string], whose
    characters are the 8-bit [ascii] values.  Go [int] and [slog.Level] are
    modelled by [Z]; no operation of the handler can overflow them. *)

From Stdlib Require Import ZArith Strings.String Strings.Ascii Bool Lia.
From Stdlib Require Import Numbers.DecimalString.
From stdpp Require Import base tactics option list strings.

Local Open Scope Z_scope.
Set Warnings "-register-all".

(* ===================================================================== *)
(** * Part I: definitions                                                 *)
(* ===================================================================== *)

(** ** Go strings, bytes and runes *)
Module GoString.

Definition byteOf (c : ascii) : Z := Z.of_N (N_of_ascii c).

(** The bytes of a string, [s[0]], [s[1]], ... *)
Definition bytes (s : string) : list Z := byteOf <$> list_ascii_of_string s.

(** [len(s)]: the number of bytes. *)
Definition len (s : string) : Z := Z.of_nat (String.length s).

(** [s[:n]] for [0 <= n <= len(s)]. *)
Definition sliceTo (n : Z) (s : string) : string :=
  String.substring 0 (Z.to_nat n) s.

Definition RuneError : Z := 65533.

Definition between (lo hi b : Z) : bool := (lo <=? b) && (b <=? hi).

(** Bounds that the second byte of a multi-byte sequence has to meet,
    by leading byte (the [acceptRanges] table of package utf8). *)
Definition secondRange (b0 : Z) : Z * Z :=
  if b0 =? 224 then (160, 191)
  else if b0 =? 237 then (128, 159)
  else if b0 =? 240 then (144, 191)
  else if b0 =? 244 then (128, 143)
  else (128, 191).

(** [utf8.DecodeRuneInString]: the first rune of a byte sequence and
    its width; an invalid or truncated sequence decodes to
    [(RuneError, 1)]. *)
Definition DecodeRune (p : list Z) : Z * nat :=
  match p with
  | [] => (RuneError, 0%nat)
  | b0 :: rest =>
      let '(lo, hi) := secondRange b0 in
      if b0 <? 128 then (b0, 1%nat)
      else if between 194 223 b0 then
        match rest with
        | b1 :: _ =>
            if between lo hi b1
            then (Z.lor (Z.shiftl (Z.land b0 31) 6) (Z.land b1 63), 2%nat)
            else (RuneError, 1%nat)
        | _ => (RuneError, 1%nat)
        end
      else if between 224 239 b0 then
        match rest with
        | b1 :: b2 :: _ =>
            if between lo hi b1 && between 128 191 b2
            then (Z.lor (Z.shiftl (Z.land b0 15) 12)
                    (Z.lor (Z.shiftl (Z.land b1 63) 6) (Z.land b2 63)), 3%nat)
            else (RuneError, 1%nat)
        | _ => (RuneError, 1%nat)
        end
      else if between 240 244 b0 then
        match rest with
        | b1 :: b2 :: b3 :: _ =>
            if between lo hi b1 && between 128 191 b2 && between 128 191 b3
            then (Z.lor (Z.shiftl (Z.land b0 7) 18)
                    (Z.lor (Z.shiftl (Z.land b1 63) 12)
                       (Z.lor (Z.shiftl (Z.land b2 63) 6) (Z.land b3 63))), 4%nat)
            else (RuneError, 1%nat)
        | _ => (RuneError, 1%nat)
        end
      else (RuneError, 1%nat)
  end.

(** The runes that [for _, r := range s] visits.  [skip] counts the
    bytes of the rune decoded last that are still to be passed over. *)
Fixpoint runesFrom (skip : nat) (p : list Z) : list Z :=
  match p with
  | [] => []
  | _ :: rest =>
      match skip with
      | S k => runesFrom k rest
      | O => let '(r, w) := DecodeRune p in r :: runesFrom (w - 1) rest
      end
  end.

Definition runes (s : string) : list Z := runesFrom 0 (bytes s).

(** [utf8.RuneCountInString]. *)
Definition RuneCountInString (s : string) : Z := Z.of_nat (length (runes s)).

(** A string of [n] spaces. *)
Fixpoint spaces (n : nat) : string :=
  match n with
  | O => EmptyString
  | S k => String " " (spaces k)
  end.

(** [fmt.Sprintf("%-*s", width, s)]: a negative width is taken as its
    absolute value, width 0 means no padding, and the padding makes up
    the difference between the width and the number of runes of [s]
    (package fmt measures width in code points). *)
Definition SprintfPadRight (width : Z) (s : string) : string :=
  let wid := Z.abs width in
  if wid =? 0 then s
  else append s (spaces (Z.to_nat (wid - RuneCountInString s))).

(** [strings.Join(elems, sep)]. *)
Fixpoint Join (elems : list string) (sep : string) : string :=
  match elems with
  | [] => EmptyString
  | [x] => x
  | x :: rest => append x (append sep (Join rest sep))
  end.

(** [strings.LastIndex(s, "/")], as the suffix after the last slash
    when there is one. *)
Fixpoint afterLastSlash (s : string) : option string :=
  match s with
  | EmptyString => None
  | String c s' =>
      match afterLastSlash s' with
      | Some t => Some t
      | None => if Ascii.eqb c "/" then Some s' else None
      end
  end.


(** [strconv.FormatInt(n, 10)]. *)
Definition FormatInt (n : Z) : string := NilEmpty.string_of_int (Z.to_int n).

End GoString.

(** ** strconv.ParseFloat

    The handler only asks whether [strconv.ParseFloat(s, 64)] returns a nil
    error.  This is Go's library code, not the repository's; the model
    follows the scanner of strconv/atof.go ([special], [readFloat],
    [underscoreOK]) and decides the range error on the exact value of the
    numeral, which is what Go's correctly rounded conversion amounts to. *)
Module Strconv.
Import GoString.

(** [lower(c)] is [c | ('x' - 'X')]. *)
Definition lower (c : Z) : Z := Z.lor c 32.

Definition isDigit (c : Z) : bool := between 48 57 c.
Definition isHexLetter (c : Z) : bool := between 97 102 (lower c).

Fixpoint commonPrefixLenIgnoreCase (s prefix : list Z) : nat :=
  match prefix, s with
  | p :: prefix', c :: s' =>
      let c' := if between 65 90 c then c + 32 else c in
      if c' =? p then S (commonPrefixLenIgnoreCase s' prefix') else O
  | _, _ => O
  end.

(** The ['i', 'I'] case of [special], reached directly or by falling
    through from a sign; [nsign] is the number of sign bytes dropped. *)
Definition specialInf (nsign : nat) (s : list Z) : option nat :=
  let n := commonPrefixLenIgnoreCase s (bytes "infinity") in
  let n := if (3 <? n)%nat && (n <? 8)%nat then 3%nat else n in
  if (n =? 3)%nat || (n =? 8)%nat then Some (nsign + n)%nat else None.

(** [special]: the number of bytes of a leading infinity or NaN. *)
Definition special (s : list Z) : option nat :=
  match s with
  | [] => None
  | c :: rest =>
      if (c =? 43) || (c =? 45) then specialInf 1 rest
      else if (c =? 105) || (c =? 73) then specialInf 0 s
      else if (c =? 110) || (c =? 78) then
        if (commonPrefixLenIgnoreCase s (bytes "nan") =? 3)%nat
        then Some 3%nat else None
      else None
  end.

(** What the digit loop of [readFloat] has seen: the flags of the Go
    code, the exact integer [mant] made of all the digits read, and the
    number [frac] of digits read after the point. *)
Record mantissa := Mantissa {
  sawdot : bool;
  sawdigits : bool;
  underscores : bool;
  mant : Z;
  frac : Z
}.

Definition pushDigit (base d : Z) (m : mantissa) : mantissa :=
  {| sawdot := sawdot m; sawdigits := true; underscores := underscores m;
     mant := mant m * base + d;
     frac := if sawdot m then frac m + 1 else frac m |}.

(** The [loop:] of [readFloat]; it returns the bytes left unread. *)
Fixpoint scanMantissa (hex : bool) (m : mantissa) (s : list Z)
  : mantissa * list Z :=
  match s with
  | [] => (m, [])
  | c :: rest =>
      if c =? 95 then
        scanMantissa hex
          {| sawdot := sawdot m; sawdigits := sawdigits m;
             underscores := true; mant := mant m; frac := frac m |} rest
      else if c =? 46 then
        if sawdot m then (m, s)
        else scanMantissa hex
               {| sawdot := true; sawdigits := sawdigits m;
                  underscores := underscores m; mant := mant m;
                  frac := frac m |} rest
      else if isDigit c then
        scanMantissa hex (pushDigit (if hex then 16 else 10) (c - 48) m) rest
      else if hex && isHexLetter c then
        scanMantissa hex (pushDigit 16 (lower c - 97 + 10) m) rest
      else (m, s)
  end.

(** The digits of the exponent: [e] stops growing once it has reached
    10000; underscores are passed over and recorded. *)
Fixpoint scanExponent (e : Z) (us : bool) (s : list Z) : Z * bool * list Z :=
  match s with
  | [] => (e, us, [])
  | c :: rest =>
      if c =? 95 then scanExponent e true rest
      else if isDigit c then
        scanExponent (if e <? 10000 then e * 10 + (c - 48) else e) us rest
      else (e, us, s)
  end.

(** [underscoreOK]: underscores only between digits or between a base
    prefix and a digit. *)
Inductive saw := SawStart | SawDigit | SawUnderscore | SawOther.

Fixpoint underscoreScan (hex : bool) (st : saw) (s : list Z) : bool :=
  match s with
  | [] => match st with SawUnderscore => false | _ => true end
  | c :: rest =>
      if isDigit c || (hex && isHexLetter c) then underscoreScan hex SawDigit rest
      else if c =? 95 then
        match st with
        | SawDigit => underscoreScan hex SawUnderscore rest
        | _ => false
        end
      else
        match st with
        | SawUnderscore => false
        | _ => underscoreScan hex SawOther rest
        end
  end.

Definition dropSign (s : list Z) : list Z :=
  match s with
  | c :: rest => if (c =? 45) || (c =? 43) then rest else s
  | [] => s
  end.

Definition underscoreOK (s : list Z) : bool :=
  match dropSign s with
  | c0 :: c1 :: rest =>
      if (c0 =? 48) && ((lower c1 =? 98) || (lower c1 =? 111) || (lower c1 =? 120))
      then underscoreScan (lower c1 =? 120) SawDigit rest
      else underscoreScan false SawStart (c0 :: c1 :: rest)
  | s' => underscoreScan false SawStart s'
  end.

(** A numeral as [readFloat] reads it: value [mant * 16^-frac * 2^exp]
    when [hex], [mant * 10^(exp - frac)] otherwise. *)
Record numeral := Numeral {
  num_hex : bool;
  num_mant : Z;
  num_frac : Z;
  num_exp : Z
}.

(** The optional exponent of [readFloat]; [None] is a syntax error. *)
Definition readExponent (hex : bool) (us : bool) (s : list Z)
  : option (Z * bool * list Z) :=
  match s with
  | c :: rest =>
      if lower c =? (if hex then 112 else 101) then
        match rest with
        | [] => None
        | c1 :: rest1 =>
            let '(esign, digits) :=
              if c1 =? 43 then (1, rest1)
              else if c1 =? 45 then (-1, rest1)
              else (1, rest) in
            match digits with
            | d :: _ =>
                if isDigit d then
                  let '(e, us', unread) := scanExponent 0 us digits in
                  Some (e * esign, us', unread)
                else None
            | [] => None
            end
        end
      else if hex then None else Some (0, us, s)
  | [] => if hex then None else Some (0, us, s)
  end.

(** [readFloat], for a string that is read to its end: the numeral, or
    [None] when [readFloat] fails or stops early (ParseFloat reports a
    syntax error in both cases). *)
Definition readFloat (s : list Z) : option numeral :=
  match s with
  | [] => None
  | _ =>
      let body := dropSign s in
      let '(hex, digits) :=
        match body with
        | c0 :: c1 :: c2 :: rest =>
            if (c0 =? 48) && (lower c1 =? 120) then (true, c2 :: rest)
            else (false, body)
        | _ => (false, body)
        end in
      let '(m, unread) :=
        scanMantissa hex (Mantissa false false false 0 0) digits in
      if negb (sawdigits m) then None
      else
        match readExponent hex (underscores m) unread with
        | Some (e, us, []) =>
            if us && negb (underscoreOK s) then None
            else Some (Numeral hex (mant m) (frac m) e)
        | _ => None
        end
  end.

(** Half an ulp above the largest float64: a numeral at or beyond it
    rounds to infinity and makes ParseFloat return [ErrRange]. *)
Definition overflowThreshold : Z := 2 ^ 1024 - 2 ^ 970.

Definition tooLarge (n : numeral) : bool :=
  let b := if num_hex n then 2 else 10 in
  let k := if num_hex n then num_exp n - 4 * num_frac n
           else num_exp n - num_frac n in
  if 0 <=? k then overflowThreshold <=? num_mant n * b ^ k
  else overflowThreshold * b ^ (- k) <=? num_mant n.

(** [_, err := strconv.ParseFloat(s, 64); err == nil]. *)
Definition ParseFloatOk (s : string) : bool :=
  let p := bytes s in
  match special p with
  | Some n => (n =? length p)%nat
  | None =>
      match readFloat p with
      | Some n => negb (tooLarge n)
      | None => false
      end
  end.

End Strconv.

(** ** The quoting heuristic (handler.go, [needsQuoting]) *)
Module Quoting.
Import GoString.

(** The condition of the [for _, r := range s] loop: the rune is at most
    a space (32), or it is one of the equals sign (61), the double quote
    (34), the single quote (39), the backquote (96), the square brackets
    (91, 93) and the braces (123, 125). *)
Definition specialRune (r : Z) : bool :=
  (r <=? 32) || (r =? 61) || (r =? 34) || (r =? 39) || (r =? 96)
  || (r =? 91) || (r =? 93) || (r =? 123) || (r =? 125).

Definition reservedLiteral (s : string) : bool :=
  String.eqb s "true" || String.eqb s "false" || String.eqb s "nil".

(** [needsQuoting] with the float test as a parameter. *)
Definition needsQuotingWith (parseFloatOk : string -> bool) (s : string) : bool :=
  if String.eqb s "" then true
  else if parseFloatOk s then false
  else if reservedLiteral s then true
  else existsb specialRune (runes s).

Definition needsQuoting (s : string) : bool :=
  needsQuotingWith Strconv.ParseFloatOk s.

End Quoting.

(** ** log/slog: levels, values, attributes, records *)
Module Slog.

Definition LevelDebug : Z := -4.
Definition LevelInfo : Z := 0.
Definition LevelWarn : Z := 4.
Definition LevelError : Z := 8.

Definition SourceKey : string := "source".

(** [slog.Value], one constructor per kind.  A float64, and an [any] that
    is neither nil nor an error (a [LogValuer] among them, which the
    handler does not resolve), are kept as the text Go prints for them;
    times are instants and durations are nanoseconds. *)
Inductive Value :=
| StringValue (s : string)
| Int64Value (n : Z)
| Uint64Value (n : Z)
| Float64Value (text : string)
| BoolValue (b : bool)
| DurationValue (d : Z)
| TimeValue (t : Z)
| AnyNil
| AnyError (msg : string)
| AnyOther (text : string)
| GroupValue (members : list (string * Value)).

Definition isAnyNil (v : Value) : bool :=
  match v with AnyNil => true | _ => false end.

End Slog.

(** [slog.Attr]. *)
Module Attr.
Record t := mk { Key : string; Value : Slog.Value }.

(** The zero attribute, [slog.Attr{}]: empty key, nil [any]. *)
Definition zero : t := mk "" Slog.AnyNil.

(** [a.Equal(slog.Attr{})]. *)
Definition isZero (a : t) : bool :=
  String.eqb (Key a) "" && Slog.isAnyNil (Value a).
End Attr.

(** [slog.Record]; [Attrs] are the attributes that [r.Attrs] visits, in
    order. *)
Module LogRecord.
Record t := mk {
  Time : Z;
  Message : string;
  Level : Z;
  PC : Z;
  Attrs : list Attr.t
}.
End LogRecord.

(** An [io.Writer] that is not nil: its identity, and the error that
    each of its [Write] calls returns, if it is a failing writer. *)
Module Writer.
Record t := mk { id : nat; failure : option string }.
End Writer.

(** [humanlog.Options] (options.go). *)
Module Options.
Record t := mk {
  Level : Z;
  Writer : option Writer.t;
  TimeFormat : string;
  DisableColor : bool;
  AddSource : bool;
  MessageWidth : Z;
  UseJSON : bool
}.

Definition DefaultOptions : t :=
  {| Level := Slog.LevelInfo; Writer := None; TimeFormat := "15:04:05";
     DisableColor := false; AddSource := true; MessageWidth := 40;
     UseJSON := false |}.
End Options.

(** The handler of package slog that [NewHandler] wraps: how it was
    built ([slog.NewJSONHandler] or [slog.NewTextHandler] with
    [HandlerOptions{AddSource, Level}]) and the [WithAttrs] and
    [WithGroup] calls made on it since, oldest first. *)
Module SlogHandler.
Inductive op :=
| OpAttrs (attrs : list Attr.t)
| OpGroup (name : string).

Record t := mk {
  json : bool;
  writer : Writer.t;
  addSource : bool;
  level : Z;
  ops : list op
}.

(** [Enabled]: the level is at least [HandlerOptions.Level]. *)
Definition Enabled (sh : t) (l : Z) : bool := level sh <=? l.

Definition WithAttrs (sh : t) (attrs : list Attr.t) : t :=
  mk (json sh) (writer sh) (addSource sh) (level sh) (ops sh ++ [OpAttrs attrs]).

Definition WithGroup (sh : t) (name : string) : t :=
  mk (json sh) (writer sh) (addSource sh) (level sh) (ops sh ++ [OpGroup name]).
End SlogHandler.

(** ** What the embedding takes from Go's library and runtime

    Pure functions of the standard library whose results the handler
    copies into its output, and the capacity that [append] gives a slice
    it has to reallocate. *)
Class GoRuntime := {
  (** [t.Format(layout)] *)
  timeFormat : Z -> string -> string;
  (** [d.String()] of a [time.Duration] *)
  durationString : Z -> string;
  (** [strconv.Quote], the [%q] verb *)
  Quote : string -> string;
  (** [File] and [Line] of the frame that [runtime.CallersFrames] finds
      for a program counter *)
  callerFrame : Z -> string * Z;
  (** the line that a handler of package slog writes for a record *)
  slogEncode : SlogHandler.t -> LogRecord.t -> string;
  (** [growslice newLen oldCap]: the capacity that the runtime picks for
      the new backing array of a slice that has to grow *)
  growslice : nat -> nat -> nat
}.

(** ** Slices and their backing arrays

    A slice is a window on a backing array: handlers that were derived
    from one another by [append] may share an array.  A heap is the list
    of the arrays allocated so far; an array never changes its length,
    which is the capacity of the slices cut from its start. *)
Module Slice.

Record t := mk { base : option nat; len : nat; cap : nat }.

(** The nil slice. *)
Definition null : t := mk None 0 0.

Section Elements.
Context {A : Type} (zero : A).

(** The elements [s[0] .. s[len-1]]. *)
Definition read (hp : list (list A)) (s : t) : list A :=
  match base s with
  | Some a => take (len s) (default [] (hp !! a))
  | None => []
  end.

(** [append(s, xs...)]: within the capacity the elements are written
    into the backing array of [s], behind its length; otherwise a new
    array is allocated, of the capacity the runtime picks and never less
    than the new length, and the elements of [s] copied into it. *)
Definition append `{GoRuntime} (hp : list (list A)) (s : t) (xs : list A)
  : t * list (list A) :=
  let n := (len s + length xs)%nat in
  if (n <=? cap s)%nat then
    match base s with
    | Some a =>
        (mk (Some a) n (cap s),
         alter (fun arr => take (len s) arr ++ xs ++ drop n arr) a hp)
    | None => (s, hp)
    end
  else
    let c := Nat.max n (growslice n (cap s)) in
    (mk (Some (length hp)) n c,
     hp ++ [read hp s ++ xs ++ replicate (c - n) zero]).

(** [make([]T, n, c)]. *)
Definition make (hp : list (list A)) (n c : nat) : t * list (list A) :=
  (mk (Some (length hp)) n c, hp ++ [replicate c zero]).

(** [copy(dst, src)], for [len(dst) >= len(src)]. *)
Definition copy (hp : list (list A)) (dst : t) (src : list A)
  : list (list A) :=
  match base dst with
  | Some a => alter (fun arr => src ++ drop (length src) arr) a hp
  | None => hp
  end.

(** A slice lies within an allocated array. *)
Definition valid (hp : list (list A)) (s : t) : Prop :=
  match base s with
  | Some a => exists arr, hp !! a = Some arr /\ length arr = cap s
                          /\ (len s <= cap s)%nat
  | None => len s = 0%nat /\ cap s = 0%nat
  end.
End Elements.

(** [nextslicecap] of Go's runtime (runtime/slice.go): double a small
    slice, grow a large one by a quarter plus 192 until it fits.  The
    loop of the Go code ends within [newLen] rounds; its guard against
    an overflowing capacity, which returns [newLen], is the maximum
    taken here. *)
Fixpoint growLarge (fuel newLen newcap : nat) : nat :=
  match fuel with
  | O => newcap
  | S k =>
      let newcap' := (newcap + (newcap + 3 * 256) / 4)%nat in
      if (newLen <=? newcap')%nat then newcap' else growLarge k newLen newcap'
  end.

Definition nextslicecap (newLen oldCap : nat) : nat :=
  let doublecap := (oldCap + oldCap)%nat in
  if (doublecap <? newLen)%nat then newLen
  else if (oldCap <? 256)%nat then doublecap
  else Nat.max newLen (growLarge newLen newLen oldCap).

End Slice.

(** ** The state a handler runs in

    The backing arrays of the attribute and group slices, the writes that
    reached the sinks (writer and bytes, oldest first), and a log of the
    steps of [Handle] that lock, format or allocate. *)
Inductive Step :=
| StepDelegate      (* h.h.Handle(ctx, r) *)
| StepLock          (* h.mu.Lock() *)
| StepFormatTime    (* r.Time.Format *)
| StepFormatLevel   (* formatLevel *)
| StepFormatMessage (* truncation and fmt.Sprintf *)
| StepBuilder       (* var sb strings.Builder and the writes into it *)
| StepAttrs         (* the []string of formatted attributes *)
| StepWrite         (* io.WriteString *)
| StepUnlock.       (* the deferred h.mu.Unlock() *)

Record World := mkWorld {
  attrArrays : list (list Attr.t);
  groupArrays : list (list string);
  written : list (nat * string);
  steps : list Step
}.

Definition emptyWorld : World := mkWorld [] [] [] [].

(** A call that returns or panics. *)
Inductive outcome (A : Type) :=
| Returns (a : A)
| Panics (msg : string).
Arguments Returns {A} a.
Arguments Panics {A} msg.

(** Computations on the world; a panic ends them. *)
Definition M (A : Type) : Type := World -> outcome A * World.

Definition ret {A} (a : A) : M A := fun w => (Returns a, w).

Definition panic {A} (msg : string) : M A := fun w => (Panics msg, w).

Definition bind {A B} (c : M A) (k : A -> M B) : M B :=
  fun w =>
    match c w with
    | (Returns a, w') => k a w'
    | (Panics msg, w') => (Panics msg, w')
    end.

Notation "x <- c ;; k" := (bind c (fun x => k))
  (at level 100, c at next level, right associativity).
Notation "c ;;; k" := (bind c (fun _ => k))
  (at level 100, right associativity).

Definition step (e : Step) : M unit :=
  fun w => (Returns tt,
            mkWorld (attrArrays w) (groupArrays w) (written w) (steps w ++ [e])).

(** [io.WriteString(w, s)]: the error of a failing writer, else the bytes
    reach the sink; a nil writer panics. *)
Definition WriteString (wr : option Writer.t) (s : string) : M (option string) :=
  match wr with
  | Some x =>
      match Writer.failure x with
      | Some e => ret (Some e)
      | None =>
          fun w => (Returns None,
                    mkWorld (attrArrays w) (groupArrays w)
                      (written w ++ [(Writer.id x, s)]) (steps w))
      end
  | None => panic "runtime error: invalid memory address or nil pointer dereference"
  end.

Definition readAttrs (s : Slice.t) : M (list Attr.t) :=
  fun w => (Returns (Slice.read (attrArrays w) s), w).

Definition readGroups (s : Slice.t) : M (list string) :=
  fun w => (Returns (Slice.read (groupArrays w) s), w).

Definition appendAttrSlice `{GoRuntime} (s : Slice.t) (xs : list Attr.t) : M Slice.t :=
  fun w =>
    let '(s', hp) := Slice.append Attr.zero (attrArrays w) s xs in
    (Returns s', mkWorld hp (groupArrays w) (written w) (steps w)).

Definition appendGroupSlice `{GoRuntime} (s : Slice.t) (xs : list string) : M Slice.t :=
  fun w =>
    let '(s', hp) := Slice.append EmptyString (groupArrays w) s xs in
    (Returns s', mkWorld (attrArrays w) hp (written w) (steps w)).

(** ** The handler (handler.go, humanlog.go) *)
Module Humanlog.
Import GoString Slog.

(** [const messageWidth = 40] *)
Definition messageWidth : Z := 40.

Definition esc : string := String "027"%char EmptyString.
Definition newline : string := String "010"%char EmptyString.

Definition colorReset : string := esc +:+ "[0m".
Definition colorRed : string := esc +:+ "[31m".
Definition colorYellow : string := esc +:+ "[33m".
Definition colorBlue : string := esc +:+ "[34m".
Definition colorGray : string := esc +:+ "[90m".

(** [time.RFC3339] *)
Definition RFC3339 : string := "2006-01-02T15:04:05Z07:00".

(** [type Handler struct]; the mutex has no state between two calls. *)
Module Handler.
Record t := mk {
  h : SlogHandler.t;
  opts : Options.t;
  attrs : Slice.t;
  groups : Slice.t
}.
End Handler.

(** [NewHandler] (humanlog.go). *)
Definition NewHandler (w : option Writer.t) (opts : option Options.t)
  : outcome Handler.t :=
  let opts := match opts with Some o => o | None => Options.DefaultOptions end in
  match w with
  | None => Panics "humanlog: nil writer"
  | Some wr =>
      let options :=
        Options.mk (Options.Level opts) (Some wr) (Options.TimeFormat opts)
          (Options.DisableColor opts) (Options.AddSource opts)
          (Options.MessageWidth opts) (Options.UseJSON opts) in
      let underlyingHandler :=
        SlogHandler.mk (Options.UseJSON opts) wr (Options.AddSource opts)
          (Options.Level opts) [] in
      Returns (Handler.mk underlyingHandler options Slice.null Slice.null)
  end.

(** [Enabled]: [h.h.Enabled(ctx, level)]. *)
Definition Enabled (hd : Handler.t) (level : Z) : bool :=
  SlogHandler.Enabled (Handler.h hd) level.

(** [formatLevel] *)
Definition formatLevel (level : Z) (disableColor : bool) : string :=
  let '(levelStr, colorCode) :=
    if LevelError <=? level then ("ERROR", colorRed)
    else if LevelWarn <=? level then ("WARN ", colorYellow)
    else if LevelInfo <=? level then ("INFO ", colorBlue)
    else ("DEBUG", colorGray) in
  if disableColor then levelStr
  else colorCode +:+ levelStr +:+ colorReset.

(** [v.String()] of a [slog.Value]. *)
Fixpoint ValueString `{GoRuntime} (v : Value) : string :=
  match v with
  | StringValue s => s
  | Int64Value n => FormatInt n
  | Uint64Value n => FormatInt n
  | Float64Value text => text
  | BoolValue b => if b then "true" else "false"
  | DurationValue d => durationString d
  | TimeValue t => timeFormat t "2006-01-02 15:04:05.999999999 -0700 MST"
  | AnyNil => "<nil>"
  | AnyError msg => msg
  | AnyOther text => text
  | GroupValue members =>
      "[" +:+ Join ((fix each (l : list (string * Value)) : list string :=
                       match l with
                       | [] => []
                       | (k, x) :: l' => (k +:+ "=" +:+ ValueString x) :: each l'
                       end) members) " " +:+ "]"
  end.

(** [needsQuoting] *)
Definition needsQuoting (s : string) : bool := Quoting.needsQuoting s.

(** [formatAttr] *)
Definition formatAttr `{GoRuntime} (attr : Attr.t) (disableColor : bool) : string :=
  if Attr.isZero attr then ""
  else
    let key := Attr.Key attr in
    match Attr.Value attr with
    | StringValue s =>
        if needsQuoting s then key +:+ "=" +:+ Quote s
        else key +:+ "=" +:+ s
    | TimeValue t => key +:+ "=" +:+ timeFormat t RFC3339
    | DurationValue d => key +:+ "=" +:+ durationString d
    | AnyError msg => key +:+ "=" +:+ Quote msg
    | val => key +:+ "=" +:+ ValueString val
    end.

(** [appendAttrs], with the group names of the handler read off its
    slice. *)
Fixpoint appendAttrs `{GoRuntime} (groups : list string) (disableColor : bool)
    (attrs : list string) (newAttrs : list Attr.t) : list string :=
  let prefix := Join groups "." in
  match newAttrs with
  | [] => attrs
  | attr :: rest =>
      let key := Attr.Key attr in
      let key := if negb (String.eqb prefix "") then prefix +:+ "." +:+ key else key in
      appendAttrs groups disableColor
        (attrs ++ [formatAttr (Attr.mk key (Attr.Value attr)) disableColor]) rest
  end.

(** The message column of [Handle]: the message cut to the width and
    padded by [fmt.Sprintf("%-*s", width, message)]. *)
Definition formatMessage (MessageWidth : Z) (message : string) : string :=
  let width := if MessageWidth <=? 0 then messageWidth else MessageWidth in
  let message :=
    if width <? len message then
      if 3 <? width then sliceTo (width - 3) message +:+ "..."
      else sliceTo width message
    else message in
  SprintfPadRight width message.

(** The [source] attribute that [Handle] adds to the formatted ones. *)
Definition appendSource `{GoRuntime} (o : Options.t) (pc : Z)
    (attrs : list string) : list string :=
  if Options.AddSource o && negb (pc =? 0) then
    let '(file, line) := callerFrame pc in
    if negb (String.eqb file "") then
      let shortFile := match afterLastSlash file with
                       | Some t => t
                       | None => file
                       end in
      let attr := Attr.mk SourceKey
                    (StringValue (shortFile +:+ ":" +:+ FormatInt line)) in
      attrs ++ [formatAttr attr (Options.DisableColor o)]
    else attrs
  else attrs.

(** The line that [Handle] assembles in its [strings.Builder], from the
    attributes and group names that the slices of the handler hold. *)
Definition renderLine `{GoRuntime} (o : Options.t) (bound : list Attr.t)
    (groups : list string) (r : LogRecord.t) : string :=
  let timeStr := timeFormat (LogRecord.Time r) (Options.TimeFormat o) in
  let levelStr := formatLevel (LogRecord.Level r) (Options.DisableColor o) in
  let formattedMessage := formatMessage (Options.MessageWidth o) (LogRecord.Message r) in
  let sb := "[" +:+ timeStr +:+ "] " +:+ levelStr +:+ " " +:+ formattedMessage in
  let attrs := appendAttrs groups (Options.DisableColor o) [] bound in
  let attrs :=
    fold_left (fun acc attr => appendAttrs groups (Options.DisableColor o) acc [attr])
      (LogRecord.Attrs r) attrs in
  let attrs := appendSource o (LogRecord.PC r) attrs in
  let sb := if (0 <? length attrs)%nat then sb +:+ " " +:+ Join attrs " " else sb in
  sb +:+ newline.

(** [h.h.Handle(ctx, r)]: the wrapped handler writes its own encoding
    of the record to its writer. *)
Definition slogHandle `{GoRuntime} (sh : SlogHandler.t) (r : LogRecord.t)
  : M (option string) :=
  step StepDelegate ;;;
  WriteString (Some (SlogHandler.writer sh)) (slogEncode sh r).

(** [Handle] *)
Definition Handle `{GoRuntime} (hd : Handler.t) (r : LogRecord.t)
  : M (option string) :=
  if negb (Enabled hd (LogRecord.Level r)) then ret None
  else if Options.UseJSON (Handler.opts hd) then slogHandle (Handler.h hd) r
  else
    step StepLock ;;;
    step StepFormatTime ;;;
    step StepFormatLevel ;;;
    step StepFormatMessage ;;;
    step StepBuilder ;;;
    bound <- readAttrs (Handler.attrs hd) ;;
    groups <- readGroups (Handler.groups hd) ;;
    step StepAttrs ;;;
    step StepWrite ;;;
    err <- WriteString (Options.Writer (Handler.opts hd))
             (renderLine (Handler.opts hd) bound groups r) ;;
    step StepUnlock ;;;
    ret err.

(** [WithAttrs] *)
Definition WithAttrs `{GoRuntime} (hd : Handler.t) (attrs : list Attr.t)
  : M Handler.t :=
  if Options.UseJSON (Handler.opts hd) then
    ret (Handler.mk (SlogHandler.WithAttrs (Handler.h hd) attrs)
           (Handler.opts hd) Slice.null Slice.null)
  else
    attrs' <- appendAttrSlice (Handler.attrs hd) attrs ;;
    ret (Handler.mk (Handler.h hd) (Handler.opts hd) attrs' (Handler.groups hd)).

(** [WithGroup] *)
Definition WithGroup `{GoRuntime} (hd : Handler.t) (name : string)
  : M Handler.t :=
  if Options.UseJSON (Handler.opts hd) then
    ret (Handler.mk (SlogHandler.WithGroup (Handler.h hd) name)
           (Handler.opts hd) Slice.null Slice.null)
  else
    groups' <- appendGroupSlice (Handler.groups hd) [name] ;;
    ret (Handler.mk (Handler.h hd) (Handler.opts hd) (Handler.attrs hd) groups').

(** The calls that derive one handler from another. *)
Inductive derivation :=
| DWithAttrs (attrs : list Attr.t)
| DWithGroup (name : string).

Definition derive1 `{GoRuntime} (hd : Handler.t) (d : derivation) : M Handler.t :=
  match d with
  | DWithAttrs attrs => WithAttrs hd attrs
  | DWithGroup name => WithGroup hd name
  end.

Fixpoint derive `{GoRuntime} (hd : Handler.t) (ds : list derivation) : M Handler.t :=
  match ds with
  | [] => ret hd
  | d :: ds' => hd' <- derive1 hd d ;; derive hd' ds'
  end.

End Humanlog.

(** ** The earlier revision of the handler

    The repository also holds the first revision of handler.go, with the
    [NewHandler] and [Options] that go with it: there is no wrapped slog
    handler, no JSON mode and no configurable width, and every derived
    handler gets arrays of its own. *)
Module Legacy.
Import GoString Slog.

Module Options.
Record t := mk {
  Level : Z;
  Writer : option Writer.t;
  TimeFormat : string;
  DisableColor : bool
}.

Definition DefaultOptions : t :=
  {| Level := LevelInfo; Writer := None; TimeFormat := "15:04:05";
     DisableColor := false |}.
End Options.

Module Handler.
Record t := mk {
  opts : Options.t;
  attrs : Slice.t;
  groups : Slice.t
}.
End Handler.

Definition NewHandler (w : option Writer.t) (opts : option Options.t)
  : outcome Handler.t :=
  let opts := match opts with Some o => o | None => Options.DefaultOptions end in
  match w with
  | None => Panics "humanlog: nil writer"
  | Some wr =>
      let options :=
        Options.mk (Options.Level opts) (Some wr) (Options.TimeFormat opts)
          (Options.DisableColor opts) in
      Returns (Handler.mk options Slice.null Slice.null)
  end.

(** [Enabled]: [level >= h.opts.Level]. *)
Definition Enabled (hd : Handler.t) (level : Z) : bool :=
  Options.Level (Handler.opts hd) <=? level.

Definition makeAttrs (n c : nat) : M Slice.t :=
  fun w =>
    let '(s, hp) := Slice.make Attr.zero (attrArrays w) n c in
    (Returns s, mkWorld hp (groupArrays w) (written w) (steps w)).

Definition makeGroups (n c : nat) : M Slice.t :=
  fun w =>
    let '(s, hp) := Slice.make EmptyString (groupArrays w) n c in
    (Returns s, mkWorld (attrArrays w) hp (written w) (steps w)).

Definition copyAttrs (dst : Slice.t) (src : list Attr.t) : M unit :=
  fun w => (Returns tt,
            mkWorld (Slice.copy (attrArrays w) dst src) (groupArrays w)
              (written w) (steps w)).

Definition copyGroups (dst : Slice.t) (src : list string) : M unit :=
  fun w => (Returns tt,
            mkWorld (attrArrays w) (Slice.copy (groupArrays w) dst src)
              (written w) (steps w)).

(** The loop of [WithAttrs] that appends the attributes one by one, each
    with the group path put before its key. *)
Fixpoint appendPrefixed `{GoRuntime} (group : string) (s : Slice.t)
    (attrs : list Attr.t) : M Slice.t :=
  match attrs with
  | [] => ret s
  | attr :: rest =>
      s' <- appendAttrSlice s
              [Attr.mk (group +:+ "." +:+ Attr.Key attr) (Attr.Value attr)] ;;
      appendPrefixed group s' rest
  end.

(** [WithAttrs] *)
Definition WithAttrs `{GoRuntime} (hd : Handler.t) (attrs : list Attr.t)
  : M Handler.t :=
  hgroups <- readGroups (Handler.groups hd) ;;
  hattrs <- readAttrs (Handler.attrs hd) ;;
  groups2 <- makeGroups (length hgroups) (length hgroups) ;;
  copyGroups groups2 hgroups ;;;
  attrs2 <- makeAttrs 0 (length hattrs + length attrs) ;;
  attrs2 <- appendAttrSlice attrs2 hattrs ;;
  attrs2 <- (if (0 <? length hgroups)%nat
             then appendPrefixed (Join hgroups ".") attrs2 attrs
             else appendAttrSlice attrs2 attrs) ;;
  ret (Handler.mk (Handler.opts hd) attrs2 groups2).

(** [WithGroup] *)
Definition WithGroup `{GoRuntime} (hd : Handler.t) (name : string)
  : M Handler.t :=
  if String.eqb name "" then ret hd
  else
    hattrs <- readAttrs (Handler.attrs hd) ;;
    hgroups <- readGroups (Handler.groups hd) ;;
    attrs2 <- makeAttrs (length hattrs) (length hattrs) ;;
    copyAttrs attrs2 hattrs ;;;
    groups2 <- makeGroups 0 (length hgroups + 1) ;;
    groups2 <- appendGroupSlice groups2 hgroups ;;
    groups2 <- appendGroupSlice groups2 [name] ;;
    ret (Handler.mk (Handler.opts hd) attrs2 groups2).

(** The line that [Handle] assembles. *)
Definition renderLine `{GoRuntime} (o : Options.t) (bound : list Attr.t)
    (r : LogRecord.t) : string :=
  let timeStr := timeFormat (LogRecord.Time r) (Options.TimeFormat o) in
  let levelStr := Humanlog.formatLevel (LogRecord.Level r) (Options.DisableColor o) in
  let message := LogRecord.Message r in
  let message :=
    if Humanlog.messageWidth <? len message
    then sliceTo (Humanlog.messageWidth - 3) message +:+ "..."
    else message in
  let formattedMessage := SprintfPadRight Humanlog.messageWidth message in
  let sb := "[" +:+ timeStr +:+ "] " +:+ levelStr +:+ " " +:+ formattedMessage in
  let attrs :=
    (fun a => Humanlog.formatAttr a (Options.DisableColor o))
      <$> (bound ++ LogRecord.Attrs r) in
  let sb := if (0 <? length attrs)%nat then sb +:+ Join attrs " " else sb in
  sb +:+ Humanlog.newline.

(** [Handle] *)
Definition Handle `{GoRuntime} (hd : Handler.t) (r : LogRecord.t)
  : M (option string) :=
  step StepLock ;;;
  step StepFormatTime ;;;
  step StepFormatLevel ;;;
  step StepFormatMessage ;;;
  step StepBuilder ;;;
  bound <- readAttrs (Handler.attrs hd) ;;
  step StepAttrs ;;;
  step StepWrite ;;;
  err <- WriteString (Options.Writer (Handler.opts hd))
           (renderLine (Handler.opts hd) bound r) ;;
  step StepUnlock ;;;
  ret err.

End Legacy.

(** ** What the tests observe *)

(** The outcome of a computation started in the empty world. *)
Definition run {A} (c : M A) : outcome A * World := c emptyWorld.

(** The bytes written to the sinks, oldest first. *)
Definition output {A} (res : outcome A * World) : list string :=
  snd <$> written (snd res).

(** A handler built by [NewHandler] in a computation. *)
Definition construct (w : option Writer.t) (opts : option Options.t)
  : M Humanlog.Handler.t :=
  match Humanlog.NewHandler w opts with
  | Returns hd => ret hd
  | Panics msg => panic msg
  end.

Definition constructLegacy (w : option Writer.t) (opts : option Legacy.Options.t)
  : M Legacy.Handler.t :=
  match Legacy.NewHandler w opts with
  | Returns hd => ret hd
  | Panics msg => panic msg
  end.

(** ** What a handler holds

    The attributes and the group names that the slices of a handler show
    in a world, and the condition that both slices lie within arrays of
    that world. *)
Definition bound (hd : Humanlog.Handler.t) (w : World) : list Attr.t :=
  Slice.read (attrArrays w) (Humanlog.Handler.attrs hd).

Definition path (hd : Humanlog.Handler.t) (w : World) : list string :=
  Slice.read (groupArrays w) (Humanlog.Handler.groups hd).

Definition wellFormed (hd : Humanlog.Handler.t) (w : World) : Prop :=
  Slice.valid (attrArrays w) (Humanlog.Handler.attrs hd)
  /\ Slice.valid (groupArrays w) (Humanlog.Handler.groups hd).

(** Text mode, with a sink that takes the writes. *)
Definition textMode (hd : Humanlog.Handler.t) (wr : Writer.t) : Prop :=
  Options.UseJSON (Humanlog.Handler.opts hd) = false
  /\ Options.Writer (Humanlog.Handler.opts hd) = Some wr
  /\ Writer.failure wr = None.

(** ** Examples to evaluate the handler on

    A runtime in which capacities grow as [nextslicecap] says (Go then
    rounds the allocation up to a size class, which leaves the capacities
    1, 2 and 4 of the attribute and group slices below as they are), times
    print their layout (which is what Go prints for the reference time of
    package time), [Quote] puts its argument between double quotes (Go's
    result for printable ASCII text without quotes and backslashes) and no
    frame is known for any program counter. *)
Definition quoteMark : string := String "034"%char EmptyString.

Definition exampleRuntime : GoRuntime := {|
  timeFormat := fun _ layout => layout;
  durationString := fun d => GoString.FormatInt d +:+ "ns";
  Quote := fun s => quoteMark +:+ s +:+ quoteMark;
  callerFrame := fun _ => (EmptyString, 0);
  slogEncode := fun _ _ => "{}";
  growslice := Slice.nextslicecap
|}.

(** A sink that takes every write, and the options of the tests: text
    mode, level info, no colour, no source attribute, default width. *)
Definition sink : Writer.t := Writer.mk 0 None.

Definition textOptions : Options.t :=
  Options.mk Slog.LevelInfo None "15:04:05" true false 0 false.

(** [slog.String(key, value)] *)
Definition String_ (key value : string) : Attr.t :=
  Attr.mk key (Slog.StringValue value).

(** A record at level info with no program counter. *)
Definition infoRecord (t : Z) (msg : string) (attrs : list Attr.t) : LogRecord.t :=
  LogRecord.mk t msg Slog.LevelInfo 0 attrs.

(** What [NewHandler(sink, &textOptions)] returns. *)
Definition infoHandler : Humanlog.Handler.t :=
  Humanlog.Handler.mk
    (SlogHandler.mk false sink false Slog.LevelInfo [])
    (Options.mk Slog.LevelInfo (Some sink) "15:04:05" true false 0 false)
    Slice.null Slice.null.

Definition debugRecord : LogRecord.t :=
  LogRecord.mk 0 "cache miss" Slog.LevelDebug 0
    [Attr.mk "key" (Slog.StringValue "user:42")].

(** The handler [NewHandler(sink, &textOptions).WithAttrs({a: 1})
    .WithAttrs({b: 2}).WithAttrs({c: 3})] and the world it lives in, when
    capacities grow as in Go: its three attributes lie in an array of
    capacity four. *)
Definition abcHandler : Humanlog.Handler.t :=
  Humanlog.Handler.mk
    (SlogHandler.mk false sink false Slog.LevelInfo [])
    (Options.mk Slog.LevelInfo (Some sink) "15:04:05" true false 0 false)
    (Slice.mk (Some 2%nat) 3 4) Slice.null.

Definition abcWorld : World :=
  mkWorld
    [[String_ "a" "1"];
     [String_ "a" "1"; String_ "b" "2"];
     [String_ "a" "1"; String_ "b" "2"; String_ "c" "3"; Attr.zero]]
    [] [] [].

(** A message of eight two-byte characters: "e" with an acute accent
    (bytes 195, 169), eight times. *)
Definition eacute : string := String "195"%char (String "169"%char EmptyString).

Definition accented : string :=
  eacute +:+ eacute +:+ eacute +:+ eacute +:+ eacute +:+ eacute +:+ eacute +:+ eacute.

(** ** What a chain of derivations hands to a handler *)

(** The attributes given to [WithAttrs], in call order. *)
Fixpoint attrsOf (ds : list Humanlog.derivation) : list Attr.t :=
  match ds with
  | [] => []
  | Humanlog.DWithAttrs attrs :: ds' => attrs ++ attrsOf ds'
  | Humanlog.DWithGroup _ :: ds' => attrsOf ds'
  end.

(** The names given to [WithGroup], in call order. *)
Fixpoint groupsOf (ds : list Humanlog.derivation) : list string :=
  match ds with
  | [] => []
  | Humanlog.DWithAttrs _ :: ds' => groupsOf ds'
  | Humanlog.DWithGroup name :: ds' => name :: groupsOf ds'
  end.

(** The calls as the wrapped slog handler sees them in JSON mode. *)
Definition opOf (d : Humanlog.derivation) : SlogHandler.op :=
  match d with
  | Humanlog.DWithAttrs attrs => SlogHandler.OpAttrs attrs
  | Humanlog.DWithGroup name => SlogHandler.OpGroup name
  end.

(** The runtime of the examples, with a frame for every program counter:
    line 42 of /home/user/app/main.go. *)
Definition sourceRuntime : GoRuntime := {|
  timeFormat := fun _ layout => layout;
  durationString := fun d => GoString.FormatInt d +:+ "ns";
  Quote := fun s => quoteMark +:+ s +:+ quoteMark;
  callerFrame := fun _ => ("/home/user/app/main.go", 42);
  slogEncode := fun _ _ => "{}";
  growslice := Slice.nextslicecap
|}.

(** The handler [NewHandler(sink, &textOptions).WithGroup("app")
    .WithGroup("db").WithGroup("pool")] and its world, when capacities
    grow as in Go: the three names lie in an array of capacity four. *)
Definition poolHandler : Humanlog.Handler.t :=
  Humanlog.Handler.mk
    (SlogHandler.mk false sink false Slog.LevelInfo [])
    (Options.mk Slog.LevelInfo (Some sink) "15:04:05" true false 0 false)
    Slice.null (Slice.mk (Some 2%nat) 3 4).

Definition poolWorld : World :=
  mkWorld [] [["app"]; ["app"; "db"]; ["app"; "db"; "pool"; ""]] [] [].

(** ** Chains of derivations in the earlier revision *)

Definition boundL (hd : Legacy.Handler.t) (w : World) : list Attr.t :=
  Slice.read (attrArrays w) (Legacy.Handler.attrs hd).

Definition pathL (hd : Legacy.Handler.t) (w : World) : list string :=
  Slice.read (groupArrays w) (Legacy.Handler.groups hd).

Definition legacyDerive1 `{GoRuntime} (hd : Legacy.Handler.t)
    (d : Humanlog.derivation) : M Legacy.Handler.t :=
  match d with
  | Humanlog.DWithAttrs attrs => Legacy.WithAttrs hd attrs
  | Humanlog.DWithGroup name => Legacy.WithGroup hd name
  end.

Fixpoint legacyDerive `{GoRuntime} (hd : Legacy.Handler.t)
    (ds : list Humanlog.derivation) : M Legacy.Handler.t :=
  match ds with
  | [] => ret hd
  | d :: ds' => hd' <- legacyDerive1 hd d ;; legacyDerive hd' ds'
  end.

(** An attribute with a group path put before its key. *)
Definition underGroup (group : string) (attr : Attr.t) : Attr.t :=
  Attr.mk (group +:+ "." +:+ Attr.Key attr) (Attr.Value attr).

(** The attributes as [WithAttrs] of the earlier revision binds them
    under a path. *)
Definition boundUnder (groups : list string) (attrs : list Attr.t) : list Attr.t :=
  if (0 <? length groups)%nat
  then underGroup (GoString.Join groups ".") <$> attrs
  else attrs.

(** The attributes that a chain binds, each under the path of the group
    names entered before it; empty names enter no group. *)
Fixpoint legacyAttrsOf (groups : list string) (ds : list Humanlog.derivation)
  : list Attr.t :=
  match ds with
  | [] => []
  | Humanlog.DWithAttrs attrs :: ds' =>
      boundUnder groups attrs ++ legacyAttrsOf groups ds'
  | Humanlog.DWithGroup name :: ds' =>
      legacyAttrsOf (if String.eqb name "" then groups else groups ++ [name]) ds'
  end.

(* ===================================================================== *)
(** * Part II: properties                                                 *)
(* ===================================================================== *)

(** ** Slices *)
Section SliceFacts.
Context {A : Type} (zero : A) `{GoRuntime}.
Implicit Types (hp : list (list A)) (s t : Slice.t) (xs : list A).

Lemma read_length hp s :
  Slice.valid hp s -> length (Slice.read hp s) = Slice.len s.
Proof.
  unfold Slice.valid, Slice.read.
  destruct (Slice.base s) as [a|].
  - intros (arr & -> & Hl & Hc). simpl. rewrite length_take. lia.
  - intros [-> _]. reflexivity.
Qed.

(** What [append] returns holds the old elements followed by the new. *)
Lemma read_append hp s xs :
  Slice.valid hp s ->
  Slice.read (Slice.append zero hp s xs).2 (Slice.append zero hp s xs).1
  = Slice.read hp s ++ xs.
Proof.
  intros Hv. pose proof (read_length hp s Hv) as Hlen.
  unfold Slice.append.
  destruct (Nat.leb_spec (Slice.len s + length xs) (Slice.cap s)) as [Hfit|Hgrow].
  - unfold Slice.valid in Hv. unfold Slice.read in *.
    destruct (Slice.base s) as [a|] eqn:Hb; simpl.
    + destruct Hv as (arr & Ha & Hl & Hc).
      rewrite list_lookup_alter_eq, Ha. simpl.
      rewrite app_assoc.
      apply take_app_length'.
      rewrite length_app, length_take. lia.
    + destruct Hv as [Hl Hc].
      destruct xs; simpl in *; [rewrite Hb; reflexivity | lia].
  - unfold Slice.read at 1. simpl.
    rewrite lookup_app_r by lia.
    rewrite Nat.sub_diag. simpl.
    rewrite app_assoc.
    apply take_app_length'.
    rewrite length_app. lia.
Qed.

(** [append] leaves what the slice it was given shows as it was. *)
Lemma read_append_self hp s xs :
  Slice.valid hp s ->
  Slice.read (Slice.append zero hp s xs).2 s = Slice.read hp s.
Proof.
  intros Hv. unfold Slice.append.
  destruct (Nat.leb_spec (Slice.len s + length xs) (Slice.cap s)) as [Hfit|Hgrow].
  - unfold Slice.valid in Hv. unfold Slice.read.
    destruct (Slice.base s) as [a|] eqn:Hb; simpl; [|reflexivity].
    destruct Hv as (arr & Ha & Hl & Hc).
    rewrite list_lookup_alter_eq, Ha. simpl.
    apply take_app_length'. rewrite length_take. lia.
  - simpl. unfold Slice.valid in Hv. unfold Slice.read.
    destruct (Slice.base s) as [a|]; [|reflexivity].
    destruct Hv as (arr & Ha & _).
    rewrite lookup_app_l by (eapply lookup_lt_Some; eauto).
    reflexivity.
Qed.

(** Slices stay within their arrays when [append] runs. *)
Lemma valid_append_other hp s xs t :
  Slice.valid hp s -> Slice.valid hp t ->
  Slice.valid (Slice.append zero hp s xs).2 t.
Proof.
  intros Hv Ht. unfold Slice.append.
  destruct (Nat.leb_spec (Slice.len s + length xs) (Slice.cap s)) as [Hfit|Hgrow].
  - unfold Slice.valid in *.
    destruct (Slice.base s) as [a|] eqn:Hb; simpl; [|exact Ht].
    destruct Hv as (arr & Ha & Hl & Hc).
    destruct (Slice.base t) as [b|]; [|exact Ht].
    destruct Ht as (arr' & Hb' & Hl' & Hc').
    destruct (decide (a = b)) as [->|Hne].
    + rewrite list_lookup_alter_eq, Hb'. simpl.
      eexists; split; [reflexivity|]. split; [|exact Hc'].
      assert (arr' = arr) as -> by congruence.
      rewrite !length_app, length_take, length_drop. lia.
    + rewrite list_lookup_alter_ne by exact Hne. eauto.
  - simpl. unfold Slice.valid in *.
    destruct (Slice.base t) as [b|]; [|exact Ht].
    destruct Ht as (arr' & Hb' & Hl' & Hc').
    exists arr'. split; [|auto].
    rewrite lookup_app_l by (eapply lookup_lt_Some; eauto). exact Hb'.
Qed.

Lemma valid_append hp s xs :
  Slice.valid hp s ->
  Slice.valid (Slice.append zero hp s xs).2 (Slice.append zero hp s xs).1.
Proof.
  intros Hv.
  pose proof (valid_append_other hp s xs s Hv Hv) as Hs.
  unfold Slice.append in *.
  destruct (Nat.leb_spec (Slice.len s + length xs) (Slice.cap s)) as [Hfit|Hgrow].
  - unfold Slice.valid in *.
    destruct (Slice.base s) as [a|] eqn:Hb; simpl in *.
    + destruct Hs as (arr & Ha & Hl & Hc). exists arr. auto.
    + rewrite Hb. exact Hv.
  - simpl. unfold Slice.valid. simpl.
    eexists. split; [apply list_lookup_middle; reflexivity|].
    pose proof (read_length hp s Hv).
    rewrite !length_app, length_replicate. lia.
Qed.

(** When [append] has to allocate, no slice that existed sees a change. *)
Lemma read_append_grow hp s xs t :
  (Slice.cap s < Slice.len s + length xs)%nat ->
  Slice.valid hp t ->
  Slice.read (Slice.append zero hp s xs).2 t = Slice.read hp t.
Proof.
  intros Hgrow Ht. unfold Slice.append.
  destruct (Nat.leb_spec (Slice.len s + length xs) (Slice.cap s)) as [Hfit|_]; [lia|].
  simpl. unfold Slice.valid in Ht. unfold Slice.read.
  destruct (Slice.base t) as [b|]; [|reflexivity].
  destruct Ht as (arr & Hb & _).
  rewrite lookup_app_l by (eapply lookup_lt_Some; eauto).
  reflexivity.
Qed.

(** With room to spare, [append] writes in place: the slice it returns
    does not depend on the elements appended. *)
Lemma append_in_place hp s xs a :
  Slice.base s = Some a ->
  (Slice.len s + length xs <= Slice.cap s)%nat ->
  (Slice.append zero hp s xs).1
  = Slice.mk (Some a) (Slice.len s + length xs) (Slice.cap s).
Proof.
  intros Hb Hfit. unfold Slice.append.
  destruct (Nat.leb_spec (Slice.len s + length xs) (Slice.cap s)); [|lia].
  rewrite Hb. reflexivity.
Qed.

Lemma valid_null hp : Slice.valid hp Slice.null.
Proof. split; reflexivity. Qed.

End SliceFacts.

(** ** The quoting heuristic *)

Lemma parseFloat_rejects_empty : Strconv.ParseFloatOk "" = false.
Proof. reflexivity. Qed.

Lemma specialRune_spec (r : Z) :
  Quoting.specialRune r = true <->
  r <= 32 \/ r = 61 \/ r = 34 \/ r = 39 \/ r = 96 \/ r = 91 \/ r = 93
  \/ r = 123 \/ r = 125.
Proof.
  unfold Quoting.specialRune.
  rewrite !orb_true_iff, Z.leb_le, !Z.eqb_eq. tauto.
Qed.

Lemma reservedLiteral_spec (s : string) :
  Quoting.reservedLiteral s = true <-> s = "true" \/ s = "false" \/ s = "nil".
Proof.
  unfold Quoting.reservedLiteral.
  rewrite !orb_true_iff, !String.eqb_eq. tauto.
Qed.

(** C2.  [needsQuoting s] holds exactly when [s] is empty, or [s] is not
    accepted by the float parser and is a reserved literal or contains a
    rune that is at most a space or one of the listed punctuation marks.
    The float test comes first: "123" and "12.5" are bare, "true" and the
    empty string are quoted, "hello" is bare and "hello world" quoted. *)
Theorem C2_needsQuoting_characterised :
  (forall s : string,
     Humanlog.needsQuoting s = true <->
     s = ""
     \/ (Strconv.ParseFloatOk s = false
         /\ (s = "true" \/ s = "false" \/ s = "nil"
             \/ exists r, In r (GoString.runes s)
                  /\ (r <= 32 \/ r = 61 \/ r = 34 \/ r = 39 \/ r = 96
                      \/ r = 91 \/ r = 93 \/ r = 123 \/ r = 125))))
  /\ Humanlog.needsQuoting "123" = false
  /\ Humanlog.needsQuoting "12.5" = false
  /\ Humanlog.needsQuoting "true" = true
  /\ Humanlog.needsQuoting "" = true
  /\ Humanlog.needsQuoting "hello" = false
  /\ Humanlog.needsQuoting "hello world" = true.
Proof.
  split; [|repeat split; reflexivity].
  intros s.
  unfold Humanlog.needsQuoting, Quoting.needsQuoting, Quoting.needsQuotingWith.
  destruct (String.eqb_spec s "") as [->|Hne].
  { split; [left; reflexivity | reflexivity]. }
  destruct (Strconv.ParseFloatOk s) eqn:Hpf.
  { split; [discriminate|].
    intros [He|[Hf _]]; [contradiction | discriminate]. }
  destruct (Quoting.reservedLiteral s) eqn:Hlit.
  { apply reservedLiteral_spec in Hlit.
    split; [|reflexivity]. intros _. right. split; [reflexivity|]. tauto. }
  assert (Hnolit : ~ (s = "true" \/ s = "false" \/ s = "nil")).
  { rewrite <- reservedLiteral_spec, Hlit. discriminate. }
  rewrite existsb_exists.
  split.
  - intros (r & Hin & Hr). right. split; [reflexivity|].
    do 3 right. exists r. split.
    + exact Hin.
    + apply specialRune_spec, Hr.
  - intros [He|[_ Hcase]]; [contradiction|].
    destruct Hcase as [Ht|[Hf|[Hn|(r & Hin & Hr)]]]; try tauto.
    exists r. split.
    + exact Hin.
    + apply specialRune_spec, Hr.
Qed.

(** C10.  A string value that the float parser accepts is never quoted:
    [needsQuoting] is false for it and the attribute renders as [key=s].
    That covers NaN and the infinities in any letter case, exponent
    notation and hexadecimal floats as much as decimal numerals. *)
Theorem C10_accepted_floats_render_bare `{GoRuntime}
    (key s : string) (disableColor : bool) :
  Strconv.ParseFloatOk s = true ->
  Humanlog.needsQuoting s = false
  /\ Humanlog.formatAttr (Attr.mk key (Slog.StringValue s)) disableColor
     = key +:+ "=" +:+ s.
Proof.
  intros Hpf.
  assert (Hq : Humanlog.needsQuoting s = false).
  { unfold Humanlog.needsQuoting, Quoting.needsQuoting, Quoting.needsQuotingWith.
    destruct (String.eqb_spec s "") as [->|_].
    - rewrite parseFloat_rejects_empty in Hpf. discriminate.
    - rewrite Hpf. reflexivity. }
  split; [exact Hq|].
  unfold Humanlog.formatAttr, Attr.isZero. simpl.
  rewrite andb_false_r, Hq. reflexivity.
Qed.

Lemma C10_witness :
  Strconv.ParseFloatOk "0x1p-2" = true
  /\ Humanlog.needsQuoting "0x1p-2" = false
  /\ @Humanlog.formatAttr exampleRuntime
       (Attr.mk "ratio" (Slog.StringValue "0x1p-2")) true
     = "ratio=0x1p-2".
Proof.
  split; [reflexivity|].
  apply (@C10_accepted_floats_render_bare exampleRuntime "ratio" "0x1p-2" true).
  reflexivity.
Defined.

(** The numerals that are not decimal and still pass the float test. *)
Lemma parseFloat_accepts_special_forms :
  Forall (fun s => Strconv.ParseFloatOk s = true /\ Humanlog.needsQuoting s = false)
    ["NaN"; "nan"; "NAN"; "Inf"; "inf"; "INF"; "+Inf"; "-inf"; "Infinity";
     "infinity"; "-INFINITY"; "+Infinity"; "1e9"; "1E9"; "-1.5e-3";
     "0x1p-2"; "0X1.8P+1"; "123"; "12.5"].
Proof. repeat constructor. Qed.

(** A signed NaN is not a float for Go, and is bare all the same. *)
Lemma signed_nan_is_bare :
  Strconv.ParseFloatOk "+NaN" = false /\ Humanlog.needsQuoting "+NaN" = false.
Proof. split; reflexivity. Qed.

(** ** Construction *)

(** C9.  [NewHandler] panics on a nil writer, whatever the options, and
    hands out no handler then; with a writer it returns a handler.  Both
    revisions of [NewHandler] agree on this. *)
Theorem C9_NewHandler_nil_writer_panics :
  (forall opts, Humanlog.NewHandler None opts = Panics "humanlog: nil writer")
  /\ (forall wr opts, exists hd, Humanlog.NewHandler (Some wr) opts = Returns hd)
  /\ (forall opts, Legacy.NewHandler None opts = Panics "humanlog: nil writer")
  /\ (forall wr opts, exists hd, Legacy.NewHandler (Some wr) opts = Returns hd).
Proof.
  repeat split; intros; try reflexivity; eexists; reflexivity.
Qed.

(** ** The level gate *)

Section Gate.
Context `{GoRuntime}.

(** Deriving a handler keeps the options and the level of the wrapped
    handler, and never panics. *)
Lemma derive1_keeps_level hd d w :
  exists hd' w',
    Humanlog.derive1 hd d w = (Returns hd', w')
    /\ Humanlog.Handler.opts hd' = Humanlog.Handler.opts hd
    /\ SlogHandler.level (Humanlog.Handler.h hd')
       = SlogHandler.level (Humanlog.Handler.h hd).
Proof.
  destruct d as [attrs|name]; simpl.
  - unfold Humanlog.WithAttrs.
    destruct (Options.UseJSON (Humanlog.Handler.opts hd)).
    + do 2 eexists. split; [reflexivity|]. split; reflexivity.
    + unfold bind, appendAttrSlice.
      destruct (Slice.append Attr.zero (attrArrays w) (Humanlog.Handler.attrs hd) attrs).
      do 2 eexists. split; [reflexivity|]. split; reflexivity.
  - unfold Humanlog.WithGroup.
    destruct (Options.UseJSON (Humanlog.Handler.opts hd)).
    + do 2 eexists. split; [reflexivity|]. split; reflexivity.
    + unfold bind, appendGroupSlice.
      destruct (Slice.append EmptyString (groupArrays w) (Humanlog.Handler.groups hd) [name]).
      do 2 eexists. split; [reflexivity|]. split; reflexivity.
Qed.

Lemma derive_keeps_level ds : forall hd w,
  exists hd' w',
    Humanlog.derive hd ds w = (Returns hd', w')
    /\ Humanlog.Handler.opts hd' = Humanlog.Handler.opts hd
    /\ SlogHandler.level (Humanlog.Handler.h hd')
       = SlogHandler.level (Humanlog.Handler.h hd).
Proof.
  induction ds as [|d ds IH]; intros hd w; simpl.
  - do 2 eexists. split; [reflexivity|]. split; reflexivity.
  - destruct (derive1_keeps_level hd d w) as (hd1 & w1 & E1 & Ho1 & Hl1).
    destruct (IH hd1 w1) as (hd2 & w2 & E2 & Ho2 & Hl2).
    exists hd2, w2. unfold bind. rewrite E1.
    split; [exact E2|]. split; congruence.
Qed.

(** C7.  The levels are ordered debug < info < warn < error.  Take the
    handler that [NewHandler] builds for options with minimum level [m],
    or any handler derived from it by [WithAttrs] and [WithGroup] calls:
    [Enabled l] is the truth value of [m <= l], so it is true at [l = m].
    The first revision compares with the configured level directly.
    [Enabled] is a function of the handler and the level alone: it takes
    no world and so changes none. *)
Theorem C7_Enabled_iff_at_least_minimum
    (wr : Writer.t) (opts : Options.t) (ds : list Humanlog.derivation)
    (w : World) (l : Z) :
  Slog.LevelDebug < Slog.LevelInfo < Slog.LevelWarn
  /\ Slog.LevelWarn < Slog.LevelError
  /\ (exists hd0 hd w',
        Humanlog.NewHandler (Some wr) (Some opts) = Returns hd0
        /\ Humanlog.derive hd0 ds w = (Returns hd, w')
        /\ Options.Level (Humanlog.Handler.opts hd) = Options.Level opts
        /\ Humanlog.Enabled hd l = (Options.Level opts <=? l)
        /\ (Humanlog.Enabled hd l = true <-> Options.Level opts <= l)
        /\ Humanlog.Enabled hd (Options.Level opts) = true)
  /\ (forall lhd : Legacy.Handler.t,
        Legacy.Enabled lhd l
        = (Legacy.Options.Level (Legacy.Handler.opts lhd) <=? l)
        /\ Legacy.Enabled lhd (Legacy.Options.Level (Legacy.Handler.opts lhd))
           = true).
Proof.
  split; [unfold Slog.LevelDebug, Slog.LevelInfo, Slog.LevelWarn; lia|].
  split; [unfold Slog.LevelWarn, Slog.LevelError; lia|].
  split.
  - eexists. 
    destruct (derive_keeps_level ds
                (Humanlog.Handler.mk
                   (SlogHandler.mk (Options.UseJSON opts) wr
                      (Options.AddSource opts) (Options.Level opts) [])
                   (Options.mk (Options.Level opts) (Some wr)
                      (Options.TimeFormat opts) (Options.DisableColor opts)
                      (Options.AddSource opts) (Options.MessageWidth opts)
                      (Options.UseJSON opts))
                   Slice.null Slice.null) w)
      as (hd & w' & E & Ho & Hl).
    exists hd, w'.
    split; [reflexivity|]. split; [exact E|].
    simpl in Ho, Hl.
    assert (HE : forall x, Humanlog.Enabled hd x = (Options.Level opts <=? x)).
    { intros x. unfold Humanlog.Enabled, SlogHandler.Enabled. rewrite Hl. reflexivity. }
    split; [rewrite Ho; reflexivity|].
    split; [apply HE|].
    split; [rewrite HE; apply Z.leb_le|].
    rewrite HE. apply Z.leb_refl.
  - intros lhd. unfold Legacy.Enabled. split; [reflexivity|apply Z.leb_refl].
Qed.

(** C6.  A record that [Enabled] turns down makes [Handle] return nil at
    once: the world is as it was, with nothing written to any sink and no
    locking, formatting or delegation step taken. *)
Theorem C6_disabled_record_returns_early
    (hd : Humanlog.Handler.t) (r : LogRecord.t) (w : World) :
  Humanlog.Enabled hd (LogRecord.Level r) = false ->
  Humanlog.Handle hd r w = (Returns None, w).
Proof.
  intros Hoff. unfold Humanlog.Handle. rewrite Hoff. reflexivity.
Qed.

End Gate.

Lemma C6_witness :
  Humanlog.NewHandler (Some sink) (Some textOptions) = Returns infoHandler
  /\ Humanlog.Enabled infoHandler (LogRecord.Level debugRecord) = false
  /\ @Humanlog.Handle exampleRuntime infoHandler debugRecord emptyWorld
     = (Returns None, emptyWorld).
Proof.
  split; [reflexivity|]. split; [reflexivity|].
  apply (@C6_disabled_record_returns_early exampleRuntime infoHandler debugRecord emptyWorld).
  reflexivity.
Defined.

(** ** Deriving handlers in text mode *)

Section TextMode.
Context `{GoRuntime}.
Implicit Types (hd : Humanlog.Handler.t) (w : World).

Lemma NewHandler_text wr o :
  Options.UseJSON o = false -> Writer.failure wr = None ->
  exists hd,
    Humanlog.NewHandler (Some wr) (Some o) = Returns hd
    /\ textMode hd wr
    /\ Humanlog.Handler.opts hd
       = Options.mk (Options.Level o) (Some wr) (Options.TimeFormat o)
           (Options.DisableColor o) (Options.AddSource o)
           (Options.MessageWidth o) false
    /\ (forall l, Humanlog.Enabled hd l = (Options.Level o <=? l))
    /\ forall w, wellFormed hd w /\ bound hd w = [] /\ path hd w = [].
Proof.
  intros Hj Hf. eexists. split; [reflexivity|].
  repeat split; simpl; auto. rewrite Hj. reflexivity.
Qed.

(** [WithAttrs] in text mode: the new handler shows the attributes of its
    parent followed by the new ones, under the same groups; the parent
    shows what it showed. *)
Lemma WithAttrs_text hd wr attrs w :
  textMode hd wr -> wellFormed hd w ->
  exists hd' w',
    Humanlog.WithAttrs hd attrs w = (Returns hd', w')
    /\ textMode hd' wr /\ wellFormed hd' w'
    /\ Humanlog.Handler.opts hd' = Humanlog.Handler.opts hd
    /\ Humanlog.Handler.h hd' = Humanlog.Handler.h hd
    /\ bound hd' w' = bound hd w ++ attrs
    /\ path hd' w' = path hd w
    /\ written w' = written w
    /\ wellFormed hd w' /\ bound hd w' = bound hd w /\ path hd w' = path hd w
    /\ Humanlog.Handler.attrs hd'
       = (Slice.append Attr.zero (attrArrays w) (Humanlog.Handler.attrs hd) attrs).1
    /\ Humanlog.Handler.groups hd' = Humanlog.Handler.groups hd
    /\ groupArrays w' = groupArrays w.
Proof.
  intros (Hj & Hw & Hf) [Ha Hg].
  unfold Humanlog.WithAttrs. rewrite Hj.
  unfold bind, appendAttrSlice, ret.
  pose proof (read_append Attr.zero (attrArrays w) _ attrs Ha) as Hread.
  pose proof (read_append_self Attr.zero (attrArrays w) _ attrs Ha) as Hself.
  pose proof (valid_append Attr.zero (attrArrays w) _ attrs Ha) as Hval.
  pose proof (valid_append_other Attr.zero (attrArrays w) _ attrs _ Ha Ha) as Hold.
  destruct (Slice.append Attr.zero (attrArrays w) (Humanlog.Handler.attrs hd) attrs)
    as [s' hp'].
  simpl in *.
  do 2 eexists. split; [reflexivity|].
  unfold textMode, wellFormed, bound, path. simpl.
  repeat split; auto.
Qed.

(** [WithGroup] in text mode: the name, empty or not, is added to the
    group path. *)
Lemma WithGroup_text hd wr name w :
  textMode hd wr -> wellFormed hd w ->
  exists hd' w',
    Humanlog.WithGroup hd name w = (Returns hd', w')
    /\ textMode hd' wr /\ wellFormed hd' w'
    /\ Humanlog.Handler.opts hd' = Humanlog.Handler.opts hd
    /\ Humanlog.Handler.h hd' = Humanlog.Handler.h hd
    /\ bound hd' w' = bound hd w
    /\ path hd' w' = path hd w ++ [name]
    /\ written w' = written w
    /\ wellFormed hd w' /\ bound hd w' = bound hd w /\ path hd w' = path hd w.
Proof.
  intros (Hj & Hw & Hf) [Ha Hg].
  unfold Humanlog.WithGroup. rewrite Hj.
  unfold bind, appendGroupSlice, ret.
  pose proof (read_append EmptyString (groupArrays w) _ [name] Hg) as Hread.
  pose proof (read_append_self EmptyString (groupArrays w) _ [name] Hg) as Hself.
  pose proof (valid_append EmptyString (groupArrays w) _ [name] Hg) as Hval.
  pose proof (valid_append_other EmptyString (groupArrays w) _ [name] _ Hg Hg) as Hold.
  destruct (Slice.append EmptyString (groupArrays w) (Humanlog.Handler.groups hd) [name])
    as [s' hp'].
  simpl in *.
  do 2 eexists. split; [reflexivity|].
  unfold textMode, wellFormed, bound, path. simpl.
  repeat split; auto.
Qed.

(** [Handle] in text mode, for a record that passes the gate: one write,
    of the line rendered from what the handler shows. *)
Lemma Handle_text hd wr r w :
  textMode hd wr ->
  Humanlog.Enabled hd (LogRecord.Level r) = true ->
  exists w',
    Humanlog.Handle hd r w = (Returns None, w')
    /\ written w'
       = written w
         ++ [(Writer.id wr,
              Humanlog.renderLine (Humanlog.Handler.opts hd) (bound hd w) (path hd w) r)]
    /\ attrArrays w' = attrArrays w /\ groupArrays w' = groupArrays w.
Proof.
  intros (Hj & Hw & Hf) Hon.
  unfold Humanlog.Handle. rewrite Hon, Hj. simpl.
  unfold bind, step, readAttrs, readGroups, WriteString, ret. simpl.
  rewrite Hw, Hf. simpl.
  eexists. split; [reflexivity|]. simpl. auto.
Qed.

End TextMode.

(** ** Running a chain of calls *)

Lemma bind_returns {A B} (c : M A) (k : A -> M B) (w w' : World) (a : A) :
  c w = (Returns a, w') -> bind c k w = k a w'.
Proof. intros E. unfold bind. rewrite E. reflexivity. Qed.

Lemma enabled_same_wrapped (hd hd' : Humanlog.Handler.t) (l : Z) :
  Humanlog.Handler.h hd' = Humanlog.Handler.h hd ->
  Humanlog.Enabled hd' l = Humanlog.Enabled hd l.
Proof. intros E. unfold Humanlog.Enabled. rewrite E. reflexivity. Qed.

Lemma infoHandler_text : textMode infoHandler sink.
Proof. repeat split. Qed.

Lemma infoHandler_wellFormed (w : World) : wellFormed infoHandler w.
Proof. split; apply valid_null. Qed.

(** One more [WithAttrs] or [WithGroup] call of a chain that runs in text
    mode: the facts about the handler it returns replace those about the
    handler it was made on. *)
Ltac chain_WithAttrs hd wr attrs w Hm Hwf :=
  let hd' := fresh "hd" in
  let w' := fresh "w" in
  let E := fresh "E" in
  let Hm' := fresh "Hm" in
  let Hwf' := fresh "Hwf" in
  let Ho := fresh "Ho" in
  let Hh := fresh "Hh" in
  let Hb := fresh "Hb" in
  let Hp := fresh "Hp" in
  let Hwr := fresh "Hwr" in
  destruct (WithAttrs_text hd wr attrs w Hm Hwf)
    as (hd' & w' & E & Hm' & Hwf' & Ho & Hh & Hb & Hp & Hwr & _);
  rewrite (bind_returns _ _ _ _ _ E).

Ltac chain_WithGroup hd wr name w Hm Hwf :=
  let hd' := fresh "hd" in
  let w' := fresh "w" in
  let E := fresh "E" in
  let Hm' := fresh "Hm" in
  let Hwf' := fresh "Hwf" in
  let Ho := fresh "Ho" in
  let Hh := fresh "Hh" in
  let Hb := fresh "Hb" in
  let Hp := fresh "Hp" in
  let Hwr := fresh "Hwr" in
  destruct (WithGroup_text hd wr name w Hm Hwf)
    as (hd' & w' & E & Hm' & Hwf' & Ho & Hh & Hb & Hp & Hwr & _);
  rewrite (bind_returns _ _ _ _ _ E).

(** ** Group prefixes *)

Section Groups.
Context `{GoRuntime}.

(** C3.  The handler does not prefix at bind time: [WithAttrs] stores the
    attributes as they are given and [Handle] prefixes every stored
    attribute with the whole group path of the handler it runs on.  An
    attribute bound before a group was entered is rendered with that
    group: [NewHandler(...).WithAttrs({method: GET}).WithGroup("request")]
    prints [request.method=GET], where binding with the path at bind
    time would print [method=GET].  Entering the group first and binding
    after prints [request.method=GET] too. *)
Theorem C3_bound_attributes_take_later_groups (t : Z) :
  output (run (hd <- construct (Some sink) (Some textOptions) ;;
               hd1 <- Humanlog.WithAttrs hd [String_ "method" "GET"] ;;
               hd2 <- Humanlog.WithGroup hd1 "request" ;;
               Humanlog.Handle hd2 (infoRecord t "Received request" [])))
  = [(("[" +:+ timeFormat t "15:04:05" +:+ "] INFO  Received request"
       +:+ GoString.spaces 24) +:+ " request.method=GET") +:+ Humanlog.newline]
  /\ output (run (hd <- construct (Some sink) (Some textOptions) ;;
                  hd1 <- Humanlog.WithGroup hd "request" ;;
                  hd2 <- Humanlog.WithAttrs hd1 [String_ "method" "GET"] ;;
                  Humanlog.Handle hd2 (infoRecord t "Received request" [])))
     = [(("[" +:+ timeFormat t "15:04:05" +:+ "] INFO  Received request"
          +:+ GoString.spaces 24) +:+ " request.method=GET") +:+ Humanlog.newline].
Proof.
  pose proof infoHandler_text as Hm0.
  pose proof (infoHandler_wellFormed emptyWorld) as Hwf0.
  unfold run, output.
  split.
  - change (construct (Some sink) (Some textOptions)) with (ret infoHandler).
    rewrite (bind_returns _ _ _ _ infoHandler eq_refl).
    chain_WithAttrs infoHandler sink [String_ "method" "GET"] emptyWorld Hm0 Hwf0.
    chain_WithGroup hd sink "request" w Hm Hwf.
    destruct (Handle_text hd0 sink (infoRecord t "Received request" []) w0 Hm1)
      as (w1 & E1 & Hout & _).
    { rewrite (enabled_same_wrapped _ _ _ Hh0), (enabled_same_wrapped _ _ _ Hh).
      reflexivity. }
    rewrite E1. simpl. rewrite Hout, Hwr0, Hwr, Ho0, Ho, Hb0, Hb, Hp0, Hp.
    vm_compute. exact eq_refl.
  - change (construct (Some sink) (Some textOptions)) with (ret infoHandler).
    rewrite (bind_returns _ _ _ _ infoHandler eq_refl).
    chain_WithGroup infoHandler sink "request" emptyWorld Hm0 Hwf0.
    chain_WithAttrs hd sink [String_ "method" "GET"] w Hm Hwf.
    destruct (Handle_text hd0 sink (infoRecord t "Received request" []) w0 Hm1)
      as (w1 & E1 & Hout & _).
    { rewrite (enabled_same_wrapped _ _ _ Hh0), (enabled_same_wrapped _ _ _ Hh).
      reflexivity. }
    rewrite E1. simpl. rewrite Hout, Hwr0, Hwr, Ho0, Ho, Hb0, Hb, Hp0, Hp.
    vm_compute. exact eq_refl.
Qed.

End Groups.

Section MoreGroups.
Context `{GoRuntime}.

(** C4.  An empty group name is appended like any other.  After
    [WithGroup("request").WithGroup("")] the path is "request." and a key
    [k] is printed as [request..k], while the handler before the empty
    group prints [request.k]. *)
Theorem C4_empty_group_changes_prefix (t : Z) :
  output (run (hd <- construct (Some sink) (Some textOptions) ;;
               hd1 <- Humanlog.WithGroup hd "request" ;;
               hd2 <- Humanlog.WithGroup hd1 "" ;;
               Humanlog.Handle hd2 (infoRecord t "m" [String_ "k" "v"])))
  = [(("[" +:+ timeFormat t "15:04:05" +:+ "] INFO  m"
       +:+ GoString.spaces 39) +:+ " request..k=v") +:+ Humanlog.newline]
  /\ output (run (hd <- construct (Some sink) (Some textOptions) ;;
                  hd1 <- Humanlog.WithGroup hd "request" ;;
                  Humanlog.Handle hd1 (infoRecord t "m" [String_ "k" "v"])))
     = [(("[" +:+ timeFormat t "15:04:05" +:+ "] INFO  m"
          +:+ GoString.spaces 39) +:+ " request.k=v") +:+ Humanlog.newline].
Proof.
  pose proof infoHandler_text as Hm0.
  pose proof (infoHandler_wellFormed emptyWorld) as Hwf0.
  unfold run, output.
  change (construct (Some sink) (Some textOptions)) with (ret infoHandler).
  rewrite !(bind_returns _ _ _ _ infoHandler eq_refl).
  split.
  - chain_WithGroup infoHandler sink "request" emptyWorld Hm0 Hwf0.
    chain_WithGroup hd sink "" w Hm Hwf.
    destruct (Handle_text hd0 sink (infoRecord t "m" [String_ "k" "v"]) w0 Hm1)
      as (w1 & E1 & Hout & _).
    { rewrite (enabled_same_wrapped _ _ _ Hh0), (enabled_same_wrapped _ _ _ Hh).
      reflexivity. }
    rewrite E1. simpl. rewrite Hout, Hwr0, Hwr, Ho0, Ho, Hb0, Hb, Hp0, Hp.
    vm_compute. exact eq_refl.
  - chain_WithGroup infoHandler sink "request" emptyWorld Hm0 Hwf0.
    destruct (Handle_text hd sink (infoRecord t "m" [String_ "k" "v"]) w Hm)
      as (w1 & E1 & Hout & _).
    { rewrite (enabled_same_wrapped _ _ _ Hh). reflexivity. }
    rewrite E1. simpl. rewrite Hout, Hwr, Ho, Hb, Hp.
    vm_compute. exact eq_refl.
Qed.

End MoreGroups.

(** ** Empty attributes *)

Lemma append_assoc (a b c : string) : (a +:+ b) +:+ c = a +:+ (b +:+ c).
Proof.
  induction a as [|x a IH]; [reflexivity|].
  change (String x ((a +:+ b) +:+ c) = String x (a +:+ (b +:+ c))).
  f_equal. exact IH.
Qed.

Section Empty.
Context `{GoRuntime}.

(** C8.  [formatAttr] returns the empty string for the zero attribute,
    but [appendAttrs] keeps that empty string and [Handle] joins it with
    the others.  A record whose only attribute is the zero attribute is
    printed with a space after the message column that the record without
    attributes does not have, and between two attributes the zero
    attribute leaves two spaces. *)
Theorem C8_zero_attribute_leaves_separator (t : Z) (disableColor : bool) :
  Humanlog.formatAttr Attr.zero disableColor = ""
  /\ output (run (hd <- construct (Some sink) (Some textOptions) ;;
                  Humanlog.Handle hd (infoRecord t "m" [])))
     = [("[" +:+ timeFormat t "15:04:05" +:+ "] INFO  m" +:+ GoString.spaces 39)
        +:+ Humanlog.newline]
  /\ output (run (hd <- construct (Some sink) (Some textOptions) ;;
                  Humanlog.Handle hd (infoRecord t "m" [Attr.zero])))
     = [(("[" +:+ timeFormat t "15:04:05" +:+ "] INFO  m" +:+ GoString.spaces 39)
         +:+ " ") +:+ Humanlog.newline]
  /\ output (run (hd <- construct (Some sink) (Some textOptions) ;;
                  Humanlog.Handle hd (infoRecord t "m" [Attr.zero])))
     <> output (run (hd <- construct (Some sink) (Some textOptions) ;;
                     Humanlog.Handle hd (infoRecord t "m" [])))
  /\ output (run (hd <- construct (Some sink) (Some textOptions) ;;
                  Humanlog.Handle hd
                    (infoRecord t "m" [String_ "a" "1"; Attr.zero; String_ "b" "2"])))
     = [(("[" +:+ timeFormat t "15:04:05" +:+ "] INFO  m" +:+ GoString.spaces 39)
         +:+ " a=1  b=2") +:+ Humanlog.newline].
Proof.
  assert (E0 : output (run (hd <- construct (Some sink) (Some textOptions) ;;
                            Humanlog.Handle hd (infoRecord t "m" [])))
               = [("[" +:+ timeFormat t "15:04:05" +:+ "] INFO  m" +:+ GoString.spaces 39)
                  +:+ Humanlog.newline]).
  { vm_compute. exact eq_refl. }
  assert (E1 : output (run (hd <- construct (Some sink) (Some textOptions) ;;
                            Humanlog.Handle hd (infoRecord t "m" [Attr.zero])))
               = [(("[" +:+ timeFormat t "15:04:05" +:+ "] INFO  m" +:+ GoString.spaces 39)
                   +:+ " ") +:+ Humanlog.newline]).
  { vm_compute. exact eq_refl. }
  split; [reflexivity|].
  split; [exact E0|].
  split; [exact E1|].
  split.
  - rewrite E0, E1. intros Heq.
    injection Heq as Heq.
    rewrite append_assoc in Heq.
    apply (inj (String.app _)) in Heq.
    discriminate Heq.
  - vm_compute. exact eq_refl.
Qed.

End Empty.

(** ** Handlers that share a backing array *)

Section Sharing.
Context `{GoRuntime}.

(** C5.  [WithAttrs] appends to the attribute slice of its receiver.  When
    the backing array of that slice has room to spare, two handlers derived
    from the same parent get the same window on the same array, and the
    second derivation overwrites the attribute of the first: a record
    logged through the handler derived with [d] is printed with [e].  The
    parent itself shows the attributes it showed before. *)
Theorem C5_sibling_attribute_overwritten
    (hd : Humanlog.Handler.t) (wr : Writer.t) (d e : Attr.t)
    (r : LogRecord.t) (w : World) :
  textMode hd wr ->
  wellFormed hd w ->
  (Slice.len (Humanlog.Handler.attrs hd) < Slice.cap (Humanlog.Handler.attrs hd))%nat ->
  Humanlog.Enabled hd (LogRecord.Level r) = true ->
  exists hd4 hd5 w2 w3,
    (hd4 <- Humanlog.WithAttrs hd [d] ;;
     hd5 <- Humanlog.WithAttrs hd [e] ;;
     ret (hd4, hd5)) w = (Returns (hd4, hd5), w2)
    /\ bound hd w2 = bound hd w
    /\ bound hd5 w2 = bound hd w ++ [e]
    /\ bound hd4 w2 = bound hd w ++ [e]
    /\ Humanlog.Handle hd4 r w2 = (Returns None, w3)
    /\ written w3
       = written w
         ++ [(Writer.id wr,
              Humanlog.renderLine (Humanlog.Handler.opts hd)
                (bound hd w ++ [e]) (path hd w) r)].
Proof.
  intros Hm Hwf Hspare Hen.
  assert (Hbase : exists a, Slice.base (Humanlog.Handler.attrs hd) = Some a).
  { destruct Hwf as [Ha _]. unfold Slice.valid in Ha.
    destruct (Slice.base (Humanlog.Handler.attrs hd)) as [a|]; [eauto|].
    destruct Ha as [Hl Hc]. lia. }
  destruct Hbase as [a Hbase].
  destruct (WithAttrs_text hd wr [d] w Hm Hwf)
    as (hd4 & w1 & E1 & Hm4 & Hwf4 & Ho4 & Hh4 & Hb4 & Hp4 & Hwr4
        & Hwf1 & Hself1 & Hpself1 & Hs4 & Hg4 & Hga1).
  destruct (WithAttrs_text hd wr [e] w1 Hm Hwf1)
    as (hd5 & w2 & E2 & Hm5 & Hwf5 & Ho5 & Hh5 & Hb5 & Hp5 & Hwr5
        & Hwf2 & Hself2 & Hpself2 & Hs5 & Hg5 & Hga2).
  rewrite (append_in_place Attr.zero _ _ [d] a Hbase) in Hs4 by (simpl; lia).
  rewrite (append_in_place Attr.zero _ _ [e] a Hbase) in Hs5 by (simpl; lia).
  assert (Hsame : bound hd4 w2 = bound hd5 w2).
  { unfold bound. rewrite Hs4, Hs5. reflexivity. }
  assert (Hpath : path hd4 w2 = path hd w).
  { unfold path. rewrite Hg4, Hga2, Hga1. reflexivity. }
  destruct (Handle_text hd4 wr r w2 Hm4) as (w3 & E3 & Hout & _).
  { rewrite (enabled_same_wrapped _ _ _ Hh4). exact Hen. }
  exists hd4, hd5, w2, w3.
  split.
  { rewrite (bind_returns _ _ _ _ _ E1), (bind_returns _ _ _ _ _ E2). reflexivity. }
  split; [congruence|].
  split; [congruence|].
  split; [congruence|].
  split; [exact E3|].
  rewrite Hout, Hwr5, Hwr4, Ho4, Hsame, Hb5, Hself1, Hpath. reflexivity.
Qed.

End Sharing.

Lemma abcHandler_wellFormed : wellFormed abcHandler abcWorld.
Proof.
  split; [|apply valid_null].
  exists [String_ "a" "1"; String_ "b" "2"; String_ "c" "3"; Attr.zero].
  split; [reflexivity|]. split; [reflexivity|]. simpl. lia.
Qed.

Section SharingExample.
#[local] Existing Instance exampleRuntime.

Lemma C5_witness :
  run (hd <- construct (Some sink) (Some textOptions) ;;
       hd1 <- Humanlog.WithAttrs hd [String_ "a" "1"] ;;
       hd2 <- Humanlog.WithAttrs hd1 [String_ "b" "2"] ;;
       Humanlog.WithAttrs hd2 [String_ "c" "3"])
  = (Returns abcHandler, abcWorld)
  /\ textMode abcHandler sink
  /\ wellFormed abcHandler abcWorld
  /\ (Slice.len (Humanlog.Handler.attrs abcHandler)
      < Slice.cap (Humanlog.Handler.attrs abcHandler))%nat
  /\ Humanlog.Enabled abcHandler Slog.LevelInfo = true
  /\ exists hd4 hd5 w2 w3,
       (hd4 <- Humanlog.WithAttrs abcHandler [String_ "d" "4"] ;;
        hd5 <- Humanlog.WithAttrs abcHandler [String_ "e" "5"] ;;
        ret (hd4, hd5)) abcWorld = (Returns (hd4, hd5), w2)
       /\ bound abcHandler w2 = bound abcHandler abcWorld
       /\ bound hd5 w2 = bound abcHandler abcWorld ++ [String_ "e" "5"]
       /\ bound hd4 w2 = bound abcHandler abcWorld ++ [String_ "e" "5"]
       /\ Humanlog.Handle hd4 (infoRecord 0 "m" []) w2 = (Returns None, w3)
       /\ written w3
          = written abcWorld
            ++ [(Writer.id sink,
                 Humanlog.renderLine (Humanlog.Handler.opts abcHandler)
                   (bound abcHandler abcWorld ++ [String_ "e" "5"])
                   (path abcHandler abcWorld) (infoRecord 0 "m" []))].
Proof.
  split; [vm_compute; reflexivity|].
  split; [repeat split|].
  split; [exact abcHandler_wellFormed|].
  split; [simpl; lia|].
  split; [reflexivity|].
  apply (@C5_sibling_attribute_overwritten exampleRuntime abcHandler sink
           (String_ "d" "4") (String_ "e" "5") (infoRecord 0 "m" []) abcWorld).
  - repeat split.
  - exact abcHandler_wellFormed.
  - simpl; lia.
  - reflexivity.
Defined.

(** The line of the failing run, evaluated: the handler derived with
    [d=4] prints [e=5]. *)
Lemma sibling_prints_other_attribute :
  output (run (hd <- construct (Some sink) (Some textOptions) ;;
               hd1 <- Humanlog.WithAttrs hd [String_ "a" "1"] ;;
               hd2 <- Humanlog.WithAttrs hd1 [String_ "b" "2"] ;;
               hd3 <- Humanlog.WithAttrs hd2 [String_ "c" "3"] ;;
               hd4 <- Humanlog.WithAttrs hd3 [String_ "d" "4"] ;;
               hd5 <- Humanlog.WithAttrs hd3 [String_ "e" "5"] ;;
               Humanlog.Handle hd4 (infoRecord 0 "m" [])))
  = ["[15:04:05] INFO  m" +:+ GoString.spaces 39 +:+ " a=1 b=2 c=3 e=5"
     +:+ Humanlog.newline].
Proof. vm_compute. reflexivity. Qed.

End SharingExample.

(** ** The message column *)












(** C1.  The cut is made on bytes and the padding counts runes.  With
    width 10, a message of eight two-byte characters (16 bytes) counts as
    too long although it has eight characters; it is cut to its first 7
    bytes, which splits the fourth character, the ellipsis is added, and
    [fmt.Sprintf] pads the ten bytes, which it counts as seven runes, with
    three spaces.  The column is 13 bytes long and is neither the message
    padded to ten characters nor a prefix of the message followed by the
    ellipsis alone. *)
Theorem C1_message_column_multibyte :
  GoString.len accented = 16
  /\ GoString.RuneCountInString accented = 8
  /\ Humanlog.formatMessage 10 accented
     = (eacute +:+ eacute +:+ eacute +:+ String "195"%char "...") +:+ "   "
  /\ GoString.sliceTo 7 accented = eacute +:+ eacute +:+ eacute +:+ String "195"%char ""
  /\ Humanlog.formatMessage 10 accented <> GoString.sliceTo 7 accented +:+ "..."
  /\ Humanlog.formatMessage 10 accented <> accented +:+ "  "
  /\ GoString.len (Humanlog.formatMessage 10 accented) = 13.
Proof.
  repeat split; try (vm_compute; reflexivity); vm_compute; discriminate.
Qed.

(** ** What [Handle] prefixes *)

Section Prefixes.
Context `{GoRuntime}.

(** [appendAttrs] formats each new attribute under the dot-joined group
    path of the handler, whatever the path was when it was bound. *)
Lemma appendAttrs_spec (groups : list string) (disableColor : bool)
    (newAttrs : list Attr.t) : forall attrs : list string,
  Humanlog.appendAttrs groups disableColor attrs newAttrs
  = attrs
    ++ ((fun attr =>
           Humanlog.formatAttr
             (Attr.mk
                (if negb (String.eqb (GoString.Join groups ".") "")
                 then GoString.Join groups "." +:+ "." +:+ Attr.Key attr
                 else Attr.Key attr)
                (Attr.Value attr)) disableColor) <$> newAttrs).
Proof.
  induction newAttrs as [|attr rest IH]; intros attrs; simpl.
  - rewrite app_nil_r. reflexivity.
  - rewrite IH, <- app_assoc. reflexivity.
Qed.

(** In text mode the order of [WithAttrs] and [WithGroup] makes no
    difference to what the derived handler shows: the attributes are
    those of the parent followed by the new ones, the path is that of the
    parent followed by the new group. *)
Lemma WithAttrs_WithGroup_commute
    (hd : Humanlog.Handler.t) (wr : Writer.t) (attrs : list Attr.t)
    (name : string) (w : World) :
  textMode hd wr -> wellFormed hd w ->
  exists hd1 w1 hd2 w2,
    (x <- Humanlog.WithAttrs hd attrs ;; Humanlog.WithGroup x name) w
    = (Returns hd1, w1)
    /\ (x <- Humanlog.WithGroup hd name ;; Humanlog.WithAttrs x attrs) w
       = (Returns hd2, w2)
    /\ bound hd1 w1 = bound hd w ++ attrs /\ path hd1 w1 = path hd w ++ [name]
    /\ bound hd2 w2 = bound hd w ++ attrs /\ path hd2 w2 = path hd w ++ [name].
Proof.
  intros Hm Hwf.
  destruct (WithAttrs_text hd wr attrs w Hm Hwf)
    as (a1 & wa1 & Ea1 & Hma1 & Hwfa1 & _ & _ & Hba1 & Hpa1 & _).
  destruct (WithGroup_text a1 wr name wa1 Hma1 Hwfa1)
    as (a2 & wa2 & Ea2 & _ & _ & _ & _ & Hba2 & Hpa2 & _).
  destruct (WithGroup_text hd wr name w Hm Hwf)
    as (g1 & wg1 & Eg1 & Hmg1 & Hwfg1 & _ & _ & Hbg1 & Hpg1 & _).
  destruct (WithAttrs_text g1 wr attrs wg1 Hmg1 Hwfg1)
    as (g2 & wg2 & Eg2 & _ & _ & _ & _ & Hbg2 & Hpg2 & _).
  exists a2, wa2, g2, wg2.
  rewrite (bind_returns _ _ _ _ _ Ea1), (bind_returns _ _ _ _ _ Eg1).
  repeat split; congruence.
Qed.

End Prefixes.

(** ** The earlier revision

    The first revision of the handler prefixes at bind time, returns its
    receiver for an empty group name, and gives every derived handler
    arrays of its own. *)

Definition legacyOptions : Legacy.Options.t :=
  Legacy.Options.mk Slog.LevelInfo None "15:04:05" true.

Section EarlierRevision.
Context `{GoRuntime}.

Lemma Legacy_WithGroup_empty (hd : Legacy.Handler.t) (w : World) :
  Legacy.WithGroup hd "" w = (Returns hd, w).
Proof. reflexivity. Qed.

Lemma Legacy_binds_prefix_once (t : Z) :
  output (run (hd <- constructLegacy (Some sink) (Some legacyOptions) ;;
               hd1 <- Legacy.WithAttrs hd [String_ "method" "GET"] ;;
               hd2 <- Legacy.WithGroup hd1 "request" ;;
               Legacy.Handle hd2 (infoRecord t "Received request" [])))
  = [(("[" +:+ timeFormat t "15:04:05" +:+ "] INFO  Received request"
       +:+ GoString.spaces 24) +:+ "method=GET") +:+ Humanlog.newline]
  /\ output (run (hd <- constructLegacy (Some sink) (Some legacyOptions) ;;
                  hd1 <- Legacy.WithGroup hd "request" ;;
                  hd2 <- Legacy.WithAttrs hd1 [String_ "method" "GET"] ;;
                  Legacy.Handle hd2 (infoRecord t "Received request" [])))
     = [(("[" +:+ timeFormat t "15:04:05" +:+ "] INFO  Received request"
          +:+ GoString.spaces 24) +:+ "request.method=GET") +:+ Humanlog.newline].
Proof. split; vm_compute; exact eq_refl. Qed.

Lemma Legacy_siblings_keep_their_attributes (t : Z) :
  output (run (hd <- constructLegacy (Some sink) (Some legacyOptions) ;;
               hd1 <- Legacy.WithAttrs hd [String_ "a" "1"] ;;
               hd2 <- Legacy.WithAttrs hd1 [String_ "b" "2"] ;;
               hd3 <- Legacy.WithAttrs hd2 [String_ "c" "3"] ;;
               hd4 <- Legacy.WithAttrs hd3 [String_ "d" "4"] ;;
               hd5 <- Legacy.WithAttrs hd3 [String_ "e" "5"] ;;
               Legacy.Handle hd4 (infoRecord t "m" [])))
  = [(("[" +:+ timeFormat t "15:04:05" +:+ "] INFO  m"
       +:+ GoString.spaces 39) +:+ "a=1 b=2 c=3 d=4") +:+ Humanlog.newline].
Proof. vm_compute. exact eq_refl. Qed.

End EarlierRevision.

(* ===================================================================== *)
(** * Part III: further properties of the handler                         *)
(* ===================================================================== *)

(** ** The width of the message column *)













(** ** The level token *)

(** X3.  For every level, named or not, the level token is five bytes
    wide without colour, and with colour it is that token between one of
    the four colour codes and the reset code, 14 bytes in all: lines stay
    aligned whatever the level. *)
Theorem level_token_has_fixed_width (level : Z) :
  GoString.len (Humanlog.formatLevel level true) = 5
  /\ GoString.len (Humanlog.formatLevel level false) = 14
  /\ In (Humanlog.formatLevel level true) ["ERROR"; "WARN "; "INFO "; "DEBUG"]
  /\ exists colorCode,
       In colorCode [Humanlog.colorRed; Humanlog.colorYellow;
                     Humanlog.colorBlue; Humanlog.colorGray]
       /\ Humanlog.formatLevel level false
          = colorCode +:+ Humanlog.formatLevel level true +:+ Humanlog.colorReset.
Proof.
  unfold Humanlog.formatLevel.
  destruct (Slog.LevelError <=? level);
    [|destruct (Slog.LevelWarn <=? level);
      [|destruct (Slog.LevelInfo <=? level)]];
    (split; [reflexivity|]); (split; [reflexivity|]);
    (split; [simpl; tauto|]); eexists; (split; [|reflexivity]); simpl; tauto.
Qed.

(** ** Attributes *)

Lemma append_not_empty (a b : string) : b <> "" -> a +:+ b <> "".
Proof. destruct a; [intros H; exact H | discriminate]. Qed.

(** X4.  [formatAttr] returns the empty string for the zero attribute and
    for no other: every other attribute is printed as its key, an equals
    sign and a text for the value.  The [disableColor] argument makes no
    difference to the result. *)
Theorem formatAttr_empty_iff_zero `{GoRuntime} (attr : Attr.t) (disableColor : bool) :
  (Humanlog.formatAttr attr disableColor = "" <-> Attr.isZero attr = true)
  /\ (exists text,
        Humanlog.formatAttr attr disableColor
        = if Attr.isZero attr then "" else Attr.Key attr +:+ "=" +:+ text)
  /\ Humanlog.formatAttr attr true = Humanlog.formatAttr attr false.
Proof.
  assert (Hshape : exists text,
            Humanlog.formatAttr attr disableColor
            = if Attr.isZero attr then "" else Attr.Key attr +:+ "=" +:+ text).
  { unfold Humanlog.formatAttr.
    destruct (Attr.isZero attr); [exists ""; reflexivity|].
    destruct (Attr.Value attr); try (eexists; reflexivity).
    destruct (Humanlog.needsQuoting s); eexists; reflexivity. }
  split; [|split; [exact Hshape | reflexivity]].
  destruct Hshape as [text Heq]. rewrite Heq.
  destruct (Attr.isZero attr); [split; reflexivity|].
  split; [|discriminate].
  intros Hempty. exfalso.
  apply (append_not_empty (Attr.Key attr) ("=" +:+ text)); [discriminate | exact Hempty].
Qed.

(** ** The attribute section of a line *)

Section Rendering.
Context `{GoRuntime}.

Lemma record_attrs_fold (groups : list string) (disableColor : bool)
    (attrs : list Attr.t) : forall acc : list string,
  fold_left (fun acc attr => Humanlog.appendAttrs groups disableColor acc [attr])
    attrs acc
  = Humanlog.appendAttrs groups disableColor acc attrs.
Proof.
  induction attrs as [|a rest IH]; intros acc; [reflexivity|].
  simpl. rewrite IH. reflexivity.
Qed.

Lemma appendSource_app (o : Options.t) (pc : Z) (attrs : list string) :
  Humanlog.appendSource o pc attrs = attrs ++ Humanlog.appendSource o pc [].
Proof.
  unfold Humanlog.appendSource.
  destruct (Options.AddSource o && negb (pc =? 0)); [|rewrite app_nil_r; reflexivity].
  destruct (callerFrame pc) as [file line].
  destruct (negb (String.eqb file "")); [reflexivity|].
  rewrite app_nil_r. reflexivity.
Qed.

(** X5.  The attribute section of a text line holds the attributes bound
    to the handler first, in the order they were bound, then those of the
    record in the order the record gives them, then the source attribute
    if there is one.  Bound and record attributes alike get the
    dot-joined group path of the handler before their key (none when the
    path joins to the empty string); the source attribute gets no
    prefix.  With no attribute at all the line ends right after the
    message column. *)
Theorem line_lists_bound_then_record_then_source
    (o : Options.t) (bound : list Attr.t) (groups : list string) (r : LogRecord.t) :
  let under := fun attr =>
    Humanlog.formatAttr
      (Attr.mk
         (if negb (String.eqb (GoString.Join groups ".") "")
          then GoString.Join groups "." +:+ "." +:+ Attr.Key attr
          else Attr.Key attr)
         (Attr.Value attr)) (Options.DisableColor o) in
  let attrs :=
    (under <$> bound) ++ (under <$> LogRecord.Attrs r)
    ++ Humanlog.appendSource o (LogRecord.PC r) [] in
  let column :=
    "[" +:+ timeFormat (LogRecord.Time r) (Options.TimeFormat o) +:+ "] "
    +:+ Humanlog.formatLevel (LogRecord.Level r) (Options.DisableColor o) +:+ " "
    +:+ Humanlog.formatMessage (Options.MessageWidth o) (LogRecord.Message r) in
  Humanlog.renderLine o bound groups r
  = match attrs with
    | [] => column +:+ Humanlog.newline
    | _ :: _ => (column +:+ " " +:+ GoString.Join attrs " ") +:+ Humanlog.newline
    end.
Proof.
  intros under attrs column.
  unfold Humanlog.renderLine.
  rewrite record_attrs_fold, !appendAttrs_spec, appendSource_app.
  rewrite app_nil_l, <- app_assoc.
  fold under. fold attrs. fold column.
  destruct attrs; reflexivity.
Qed.

End Rendering.

(** ** The source attribute *)

Lemma afterLastSlash_none (s : string) :
  GoString.afterLastSlash s = None <-> ~ In "/"%char (list_ascii_of_string s).
Proof.
  induction s as [|c s IH]; simpl; [tauto|].
  destruct (GoString.afterLastSlash s) as [t|] eqn:Ht.
  - split; [discriminate|]. intros Hno. exfalso.
    assert (Hs : ~ In "/"%char (list_ascii_of_string s)) by tauto.
    apply IH in Hs. discriminate.
  - destruct (Ascii.eqb_spec c "/") as [->|Hne].
    + split; [discriminate|]. intros Hno. exfalso. apply Hno. left. reflexivity.
    + split; [|reflexivity]. intros _ [Hc|Hin]; [congruence|].
      apply IH in Hin; [exact Hin | reflexivity].
Qed.

Lemma afterLastSlash_base (dir base : string) :
  GoString.afterLastSlash base = None ->
  GoString.afterLastSlash (dir +:+ "/" +:+ base) = Some base.
Proof.
  intros Hbase. induction dir as [|c dir IH].
  - change (GoString.afterLastSlash (String "/" base) = Some base).
    simpl. rewrite Hbase. reflexivity.
  - change (GoString.afterLastSlash (String c (dir +:+ "/" +:+ base)) = Some base).
    simpl. rewrite IH. reflexivity.
Qed.

(** X6.  The file name of the source attribute is what follows the last
    slash of the frame's file: for a file [dir/base] whose [base] holds no
    slash, a handler with [AddSource] and a record with a program counter
    get the one attribute [source=base:line] appended (between quotes when
    the base name needs them); the directory never shows. *)
Theorem source_attribute_is_base_name `{GoRuntime}
    (o : Options.t) (pc : Z) (dir base : string) (line : Z) (attrs : list string) :
  Options.AddSource o = true ->
  pc <> 0 ->
  callerFrame pc = (dir +:+ "/" +:+ base, line) ->
  ~ In "/"%char (list_ascii_of_string base) ->
  Humanlog.appendSource o pc attrs
  = attrs
    ++ [Humanlog.formatAttr
          (Attr.mk "source"
             (Slog.StringValue (base +:+ ":" +:+ GoString.FormatInt line)))
          (Options.DisableColor o)].
Proof.
  intros Hadd Hpc Hframe Hbase.
  unfold Humanlog.appendSource. rewrite Hadd, Hframe.
  destruct (Z.eqb_spec pc 0) as [E|_]; [contradiction|]. simpl.
  assert (Hfile : String.eqb (dir +:+ "/" +:+ base) "" = false).
  { apply String.eqb_neq. apply append_not_empty. discriminate. }
  rewrite Hfile. simpl.
  rewrite afterLastSlash_base by (apply afterLastSlash_none; exact Hbase).
  reflexivity.
Qed.

Lemma source_attribute_is_base_name_witness :
  Options.AddSource Options.DefaultOptions = true
  /\ 7 <> 0
  /\ @callerFrame sourceRuntime 7 = ("/home/user/app" +:+ "/" +:+ "main.go", 42)
  /\ ~ In "/"%char (list_ascii_of_string "main.go")
  /\ @Humanlog.appendSource sourceRuntime Options.DefaultOptions 7 ["user=john"]
     = ["user=john"]
       ++ [@Humanlog.formatAttr sourceRuntime
             (Attr.mk "source"
                (Slog.StringValue ("main.go" +:+ ":" +:+ GoString.FormatInt 42)))
             (Options.DisableColor Options.DefaultOptions)].
Proof.
  assert (Hbase : ~ In "/"%char (list_ascii_of_string "main.go")).
  { simpl. intros Hin. repeat (destruct Hin as [Hin|Hin]; [discriminate Hin|]). exact Hin. }
  split; [reflexivity|]. split; [discriminate|]. split; [reflexivity|].
  split; [exact Hbase|].
  apply (@source_attribute_is_base_name sourceRuntime Options.DefaultOptions 7
           "/home/user/app" "main.go" 42 ["user=john"]).
  - reflexivity.
  - discriminate.
  - reflexivity.
  - exact Hbase.
Defined.

(** ** What [Handle] does with an enabled record *)

Lemma Handle_enabled `{GoRuntime}
    (hd : Humanlog.Handler.t) (wr : Writer.t) (r : LogRecord.t) (w : World) :
  Humanlog.Enabled hd (LogRecord.Level r) = true ->
  Options.Writer (Humanlog.Handler.opts hd) = Some wr ->
  let json := Options.UseJSON (Humanlog.Handler.opts hd) in
  let target := if json then SlogHandler.writer (Humanlog.Handler.h hd) else wr in
  let line :=
    if json then slogEncode (Humanlog.Handler.h hd) r
    else Humanlog.renderLine (Humanlog.Handler.opts hd) (bound hd w) (path hd w) r in
  exists w',
    Humanlog.Handle hd r w = (Returns (Writer.failure target), w')
    /\ written w'
       = written w
         ++ match Writer.failure target with
            | None => [(Writer.id target, line)]
            | Some _ => []
            end
    /\ attrArrays w' = attrArrays w /\ groupArrays w' = groupArrays w.
Proof.
  intros Hon Hw json target line.
  unfold Humanlog.Handle. rewrite Hon. simpl.
  subst json target line.
  destruct (Options.UseJSON (Humanlog.Handler.opts hd)).
  - unfold Humanlog.slogHandle, bind, step, WriteString, ret. simpl.
    destruct (Writer.failure (SlogHandler.writer (Humanlog.Handler.h hd))) as [e|];
      simpl; eexists; (split; [reflexivity|]); simpl;
      rewrite ?app_nil_r; auto.
  - unfold bind, step, readAttrs, readGroups, WriteString, ret. simpl.
    rewrite Hw.
    destruct (Writer.failure wr) as [e|];
      simpl; eexists; (split; [reflexivity|]); simpl;
      rewrite ?app_nil_r; auto.
Qed.

(** X7.  An enabled record makes [Handle] call the sink exactly once, in
    text mode with the rendered line and in JSON mode, through the
    wrapped handler, with that handler's encoding.  [Handle] returns what
    the sink returned: nil after a write that went through, the sink's
    own error, unwrapped, after one that failed.  It changes no backing
    array. *)
Theorem Handle_writes_once_and_returns_sink_error `{GoRuntime}
    (hd : Humanlog.Handler.t) (wr : Writer.t) (r : LogRecord.t) (w : World) :
  Humanlog.Enabled hd (LogRecord.Level r) = true ->
  Options.Writer (Humanlog.Handler.opts hd) = Some wr ->
  let json := Options.UseJSON (Humanlog.Handler.opts hd) in
  let target := if json then SlogHandler.writer (Humanlog.Handler.h hd) else wr in
  let line :=
    if json then slogEncode (Humanlog.Handler.h hd) r
    else Humanlog.renderLine (Humanlog.Handler.opts hd) (bound hd w) (path hd w) r in
  exists w',
    Humanlog.Handle hd r w = (Returns (Writer.failure target), w')
    /\ written w'
       = written w
         ++ match Writer.failure target with
            | None => [(Writer.id target, line)]
            | Some _ => []
            end
    /\ attrArrays w' = attrArrays w /\ groupArrays w' = groupArrays w.
Proof. exact (Handle_enabled hd wr r w). Qed.

Lemma Handle_writes_once_and_returns_sink_error_witness :
  Humanlog.Enabled infoHandler (LogRecord.Level (infoRecord 0 "Test message" [])) = true
  /\ Options.Writer (Humanlog.Handler.opts infoHandler) = Some sink
  /\ exists w',
       @Humanlog.Handle exampleRuntime infoHandler (infoRecord 0 "Test message" [])
         emptyWorld
       = (Returns
            (Writer.failure
               (if Options.UseJSON (Humanlog.Handler.opts infoHandler)
                then SlogHandler.writer (Humanlog.Handler.h infoHandler)
                else sink)), w')
       /\ written w'
          = written emptyWorld
            ++ match
                 Writer.failure
                   (if Options.UseJSON (Humanlog.Handler.opts infoHandler)
                    then SlogHandler.writer (Humanlog.Handler.h infoHandler)
                    else sink)
               with
               | None =>
                   [(Writer.id
                       (if Options.UseJSON (Humanlog.Handler.opts infoHandler)
                        then SlogHandler.writer (Humanlog.Handler.h infoHandler)
                        else sink),
                     if Options.UseJSON (Humanlog.Handler.opts infoHandler)
                     then @slogEncode exampleRuntime (Humanlog.Handler.h infoHandler)
                            (infoRecord 0 "Test message" [])
                     else @Humanlog.renderLine exampleRuntime
                            (Humanlog.Handler.opts infoHandler)
                            (bound infoHandler emptyWorld) (path infoHandler emptyWorld)
                            (infoRecord 0 "Test message" []))]
               | Some _ => []
               end
       /\ attrArrays w' = attrArrays emptyWorld
       /\ groupArrays w' = groupArrays emptyWorld.
Proof.
  split; [reflexivity|]. split; [reflexivity|].
  apply (@Handle_writes_once_and_returns_sink_error exampleRuntime infoHandler sink
           (infoRecord 0 "Test message" []) emptyWorld); reflexivity.
Defined.

(** ** Chains of derivations *)

Section Chains.
Context `{GoRuntime}.

(** What a chain of text-mode derivations leaves: the handler shows the
    attributes and groups of its origin followed by those of the chain;
    nothing is written.  The sink plays no part. *)
Lemma derive_text (ds : list Humanlog.derivation) :
  forall (hd : Humanlog.Handler.t) (w : World),
    Options.UseJSON (Humanlog.Handler.opts hd) = false ->
    wellFormed hd w ->
    exists hd' w',
      Humanlog.derive hd ds w = (Returns hd', w')
      /\ wellFormed hd' w'
      /\ Humanlog.Handler.opts hd' = Humanlog.Handler.opts hd
      /\ Humanlog.Handler.h hd' = Humanlog.Handler.h hd
      /\ written w' = written w
      /\ bound hd' w' = bound hd w ++ attrsOf ds
      /\ path hd' w' = path hd w ++ groupsOf ds.
Proof.
  induction ds as [|d ds IH]; intros hd w Hj [Ha Hg].
  - exists hd, w. simpl. rewrite !app_nil_r. repeat split; auto.
  - destruct d as [attrs|name]; simpl.
    + unfold Humanlog.WithAttrs. rewrite Hj.
      unfold bind at 1. unfold bind at 1. unfold appendAttrSlice, ret.
      pose proof (read_append Attr.zero (attrArrays w) _ attrs Ha) as Hread.
      pose proof (valid_append Attr.zero (attrArrays w) _ attrs Ha) as Hval.
      destruct (Slice.append Attr.zero (attrArrays w)
                  (Humanlog.Handler.attrs hd) attrs) as [s' hp'].
      simpl in Hread, Hval.
      edestruct (IH (Humanlog.Handler.mk (Humanlog.Handler.h hd)
                       (Humanlog.Handler.opts hd) s' (Humanlog.Handler.groups hd))
                    (mkWorld hp' (groupArrays w) (written w) (steps w)))
        as (hd2 & w2 & E2 & Hwf2 & Ho2 & Hh2 & Hwr2 & Hb2 & Hp2);
        [exact Hj | split; [exact Hval | exact Hg] |].
      exists hd2, w2. split; [exact E2|]. split; [exact Hwf2|].
      unfold bound, path in *. simpl in *.
      rewrite Hb2, Hp2, Hread, <- app_assoc. repeat split; auto.
    + unfold Humanlog.WithGroup. rewrite Hj.
      unfold bind at 1. unfold bind at 1. unfold appendGroupSlice, ret.
      pose proof (read_append EmptyString (groupArrays w) _ [name] Hg) as Hread.
      pose proof (valid_append EmptyString (groupArrays w) _ [name] Hg) as Hval.
      destruct (Slice.append EmptyString (groupArrays w)
                  (Humanlog.Handler.groups hd) [name]) as [s' hp'].
      simpl in Hread, Hval.
      edestruct (IH (Humanlog.Handler.mk (Humanlog.Handler.h hd)
                       (Humanlog.Handler.opts hd) (Humanlog.Handler.attrs hd) s')
                    (mkWorld (attrArrays w) hp' (written w) (steps w)))
        as (hd2 & w2 & E2 & Hwf2 & Ho2 & Hh2 & Hwr2 & Hb2 & Hp2);
        [exact Hj | split; [exact Ha | exact Hval] |].
      exists hd2, w2. split; [exact E2|]. split; [exact Hwf2|].
      unfold bound, path in *. simpl in *.
      rewrite Hb2, Hp2, Hread, <- app_assoc. repeat split; auto.
Qed.

(** X8.  Take a text-mode handler from [NewHandler] and derive another
    from it by any chain of [WithAttrs] and [WithGroup] calls.  A record
    logged through the result is written if and only if its level is at
    least the configured one, as one line to the sink given to
    [NewHandler]: the line rendered from all the attributes given to
    [WithAttrs], in call order, under all the group names given to
    [WithGroup], in call order.  How the two kinds of call were
    interleaved makes no difference, and deriving writes nothing. *)
Theorem derived_text_handler_line
    (wr : Writer.t) (level : Z) (optWriter : option Writer.t)
    (timeLayout : string) (disableColor addSource : bool) (width : Z)
    (ds : list Humanlog.derivation) (r : LogRecord.t) (w : World) :
  let o := Options.mk level optWriter timeLayout disableColor addSource width false in
  exists hd0 hd w1 w2,
    Humanlog.NewHandler (Some wr) (Some o) = Returns hd0
    /\ Humanlog.derive hd0 ds w = (Returns hd, w1)
    /\ written w1 = written w
    /\ Humanlog.Handle hd r w1
       = (Returns (if level <=? LogRecord.Level r then Writer.failure wr else None), w2)
    /\ written w2
       = written w
         ++ (if level <=? LogRecord.Level r
             then match Writer.failure wr with
                  | None =>
                      [(Writer.id wr,
                        Humanlog.renderLine (Humanlog.Handler.opts hd0)
                          (attrsOf ds) (groupsOf ds) r)]
                  | Some _ => []
                  end
             else []).
Proof.
  intros o.
  set (hd0 := Humanlog.Handler.mk
                (SlogHandler.mk false wr addSource level [])
                (Options.mk level (Some wr) timeLayout disableColor addSource width false)
                Slice.null Slice.null).
  destruct (derive_text ds hd0 w eq_refl) as (hd & w1 & E & _ & Ho & Hh & Hwr & Hb & Hp).
  { split; apply valid_null. }
  exists hd0, hd, w1.
  assert (Hen : Humanlog.Enabled hd (LogRecord.Level r) = (level <=? LogRecord.Level r)).
  { unfold Humanlog.Enabled. rewrite Hh. reflexivity. }
  destruct (level <=? LogRecord.Level r) eqn:Hlev.
  - destruct (Handle_enabled hd wr r w1 Hen) as (w2 & E2 & Hout & _).
    { rewrite Ho. reflexivity. }
    rewrite Ho in E2, Hout. simpl in E2, Hout.
    exists w2. split; [reflexivity|]. split; [exact E|]. split; [exact Hwr|].
    split; [exact E2|].
    rewrite Hout, Hwr, Hb, Hp. reflexivity.
  - exists w1. split; [reflexivity|]. split; [exact E|]. split; [exact Hwr|].
    unfold Humanlog.Handle. rewrite Hen. simpl.
    split; [reflexivity|]. rewrite app_nil_r. exact Hwr.
Qed.

End Chains.

(** ** JSON mode *)

Section JsonMode.
Context `{GoRuntime}.

Lemma derive_json (ds : list Humanlog.derivation) :
  forall (hd : Humanlog.Handler.t) (w : World),
    Options.UseJSON (Humanlog.Handler.opts hd) = true ->
    Humanlog.Handler.attrs hd = Slice.null ->
    Humanlog.Handler.groups hd = Slice.null ->
    exists hd',
      Humanlog.derive hd ds w = (Returns hd', w)
      /\ Humanlog.Handler.opts hd' = Humanlog.Handler.opts hd
      /\ Humanlog.Handler.attrs hd' = Slice.null
      /\ Humanlog.Handler.groups hd' = Slice.null
      /\ Humanlog.Handler.h hd'
         = SlogHandler.mk (SlogHandler.json (Humanlog.Handler.h hd))
             (SlogHandler.writer (Humanlog.Handler.h hd))
             (SlogHandler.addSource (Humanlog.Handler.h hd))
             (SlogHandler.level (Humanlog.Handler.h hd))
             (SlogHandler.ops (Humanlog.Handler.h hd) ++ (opOf <$> ds)).
Proof.
  induction ds as [|d ds IH]; intros hd w Hj Ha Hg.
  - exists hd. simpl. rewrite app_nil_r.
    destruct hd as [[] ? ? ?]. repeat split; auto.
  - destruct d as [attrs|name]; simpl.
    + unfold Humanlog.WithAttrs. rewrite Hj. unfold bind at 1. unfold ret at 1.
      edestruct (IH (Humanlog.Handler.mk
                       (SlogHandler.WithAttrs (Humanlog.Handler.h hd) attrs)
                       (Humanlog.Handler.opts hd) Slice.null Slice.null) w)
        as (hd' & E & Ho & Ha' & Hg' & Hh'); [exact Hj | reflexivity | reflexivity |].
      exists hd'. split; [exact E|]. simpl in *.
      rewrite Hh', <- app_assoc. repeat split; auto.
    + unfold Humanlog.WithGroup. rewrite Hj. unfold bind at 1. unfold ret at 1.
      edestruct (IH (Humanlog.Handler.mk
                       (SlogHandler.WithGroup (Humanlog.Handler.h hd) name)
                       (Humanlog.Handler.opts hd) Slice.null Slice.null) w)
        as (hd' & E & Ho & Ha' & Hg' & Hh'); [exact Hj | reflexivity | reflexivity |].
      exists hd'. split; [exact E|]. simpl in *.
      rewrite Hh', <- app_assoc. repeat split; auto.
Qed.

(** X9.  In JSON mode the handler keeps nothing of its own.  Every
    [WithAttrs] and [WithGroup] call is passed on to the wrapped slog
    handler, which sees the calls one by one in call order; the
    attribute and group slices of the derived handler stay nil and the
    world is as it was, with no array allocated.  A record at or above the
    configured level is written once, in the wrapped handler's encoding,
    to the sink given to [NewHandler]; none of the text formatting
    applies. *)
Theorem derived_json_handler_delegates
    (wr : Writer.t) (level : Z) (optWriter : option Writer.t)
    (timeLayout : string) (disableColor addSource : bool) (width : Z)
    (ds : list Humanlog.derivation) (r : LogRecord.t) (w : World) :
  let o := Options.mk level optWriter timeLayout disableColor addSource width true in
  exists hd0 hd w2,
    Humanlog.NewHandler (Some wr) (Some o) = Returns hd0
    /\ Humanlog.derive hd0 ds w = (Returns hd, w)
    /\ Humanlog.Handler.attrs hd = Slice.null
    /\ Humanlog.Handler.groups hd = Slice.null
    /\ Humanlog.Handler.h hd = SlogHandler.mk true wr addSource level (opOf <$> ds)
    /\ Humanlog.Handle hd r w
       = (Returns (if level <=? LogRecord.Level r then Writer.failure wr else None), w2)
    /\ written w2
       = written w
         ++ (if level <=? LogRecord.Level r
             then match Writer.failure wr with
                  | None => [(Writer.id wr, slogEncode (Humanlog.Handler.h hd) r)]
                  | Some _ => []
                  end
             else []).
Proof.
  intros o.
  set (hd0 := Humanlog.Handler.mk
                (SlogHandler.mk true wr addSource level [])
                (Options.mk level (Some wr) timeLayout disableColor addSource width true)
                Slice.null Slice.null).
  destruct (derive_json ds hd0 w eq_refl eq_refl eq_refl)
    as (hd & E & Ho & Ha & Hg & Hh).
  simpl in Hh.
  exists hd0, hd.
  assert (Hen : Humanlog.Enabled hd (LogRecord.Level r) = (level <=? LogRecord.Level r)).
  { unfold Humanlog.Enabled. rewrite Hh. reflexivity. }
  destruct (level <=? LogRecord.Level r) eqn:Hlev.
  - destruct (Handle_enabled hd wr r w Hen) as (w2 & E2 & Hout & _).
    { rewrite Ho. reflexivity. }
    rewrite Ho in E2, Hout. simpl in E2, Hout.
    rewrite Hh in E2, Hout. simpl in E2, Hout.
    exists w2. split; [reflexivity|]. split; [exact E|].
    split; [exact Ha|]. split; [exact Hg|]. split; [exact Hh|].
    split; [exact E2|]. rewrite Hout, Hh. reflexivity.
  - exists w. split; [reflexivity|]. split; [exact E|].
    split; [exact Ha|]. split; [exact Hg|]. split; [exact Hh|].
    unfold Humanlog.Handle. rewrite Hen. simpl.
    split; [reflexivity|]. rewrite app_nil_r. reflexivity.
Qed.

End JsonMode.

(** ** What a derivation leaves of its receiver *)

Section Receiver.
Context `{GoRuntime}.

(** X10.  In text mode neither [WithAttrs] nor [WithGroup] changes what
    the handler it is called on shows: after the call the receiver has the
    attributes and the group path it had, and nothing has been written.
    The new handler shows the receiver's attributes followed by the new
    ones (for [WithAttrs]) or the receiver's path followed by the new
    name (for [WithGroup]), with the options of the receiver. *)
Theorem derivation_leaves_receiver_as_it_was
    (hd : Humanlog.Handler.t) (wr : Writer.t) (d : Humanlog.derivation) (w : World) :
  textMode hd wr ->
  wellFormed hd w ->
  exists hd' w',
    Humanlog.derive1 hd d w = (Returns hd', w')
    /\ bound hd w' = bound hd w /\ path hd w' = path hd w
    /\ wellFormed hd w' /\ written w' = written w
    /\ bound hd' w' = bound hd w ++ attrsOf [d]
    /\ path hd' w' = path hd w ++ groupsOf [d]
    /\ wellFormed hd' w' /\ textMode hd' wr
    /\ Humanlog.Handler.opts hd' = Humanlog.Handler.opts hd.
Proof.
  intros Hm Hwf. destruct d as [attrs|name]; simpl.
  - destruct (WithAttrs_text hd wr attrs w Hm Hwf)
      as (hd' & w' & E & Hm' & Hwf' & Ho & Hh & Hb & Hp & Hwr & Hwfp & Hbp & Hpp & _).
    exists hd', w'. rewrite !app_nil_r. repeat split; auto; try apply Hwfp;
      try apply Hwf'; apply Hm'.
  - destruct (WithGroup_text hd wr name w Hm Hwf)
      as (hd' & w' & E & Hm' & Hwf' & Ho & Hh & Hb & Hp & Hwr & Hwfp & Hbp & Hpp).
    exists hd', w'. rewrite !app_nil_r. repeat split; auto; try apply Hwfp;
      try apply Hwf'; apply Hm'.
Qed.

End Receiver.

Lemma derivation_leaves_receiver_as_it_was_witness :
  textMode abcHandler sink
  /\ wellFormed abcHandler abcWorld
  /\ exists hd' w',
       @Humanlog.derive1 exampleRuntime abcHandler
         (Humanlog.DWithAttrs [String_ "d" "4"]) abcWorld = (Returns hd', w')
       /\ bound abcHandler w' = bound abcHandler abcWorld
       /\ path abcHandler w' = path abcHandler abcWorld
       /\ wellFormed abcHandler w' /\ written w' = written abcWorld
       /\ bound hd' w'
          = bound abcHandler abcWorld
            ++ attrsOf [Humanlog.DWithAttrs [String_ "d" "4"]]
       /\ path hd' w'
          = path abcHandler abcWorld
            ++ groupsOf [Humanlog.DWithAttrs [String_ "d" "4"]]
       /\ wellFormed hd' w' /\ textMode hd' sink
       /\ Humanlog.Handler.opts hd' = Humanlog.Handler.opts abcHandler.
Proof.
  split; [repeat split|]. split; [exact abcHandler_wellFormed|].
  apply (@derivation_leaves_receiver_as_it_was exampleRuntime abcHandler sink
           (Humanlog.DWithAttrs [String_ "d" "4"]) abcWorld).
  - repeat split.
  - exact abcHandler_wellFormed.
Defined.

(** ** Group paths that share a backing array *)

Section SharedGroups.
Context `{GoRuntime}.

Lemma WithGroup_text_slices (hd : Humanlog.Handler.t) (name : string) (w : World) :
  Options.UseJSON (Humanlog.Handler.opts hd) = false ->
  Humanlog.WithGroup hd name w
  = (Returns
       (Humanlog.Handler.mk (Humanlog.Handler.h hd) (Humanlog.Handler.opts hd)
          (Humanlog.Handler.attrs hd)
          (Slice.append EmptyString (groupArrays w) (Humanlog.Handler.groups hd) [name]).1),
     mkWorld (attrArrays w)
       (Slice.append EmptyString (groupArrays w) (Humanlog.Handler.groups hd) [name]).2
       (written w) (steps w)).
Proof.
  intros Hj. unfold Humanlog.WithGroup. rewrite Hj.
  unfold bind, appendGroupSlice, ret.
  destruct (Slice.append EmptyString (groupArrays w) (Humanlog.Handler.groups hd) [name]).
  reflexivity.
Qed.

(** X11.  [WithGroup] appends to the group slice of its receiver.  When
    the backing array of that slice has room to spare, two handlers
    derived from the same parent with different group names get the same
    window on the same array: after the second derivation both show the
    second name, and a record logged through the first handler is printed
    under the group path of the second.  The parent shows the path it
    had. *)
Theorem sibling_group_overwritten
    (hd : Humanlog.Handler.t) (wr : Writer.t) (first second : string)
    (r : LogRecord.t) (w : World) :
  textMode hd wr ->
  wellFormed hd w ->
  (Slice.len (Humanlog.Handler.groups hd) < Slice.cap (Humanlog.Handler.groups hd))%nat ->
  Humanlog.Enabled hd (LogRecord.Level r) = true ->
  exists hd1 hd2 w2 w3,
    (hd1 <- Humanlog.WithGroup hd first ;;
     hd2 <- Humanlog.WithGroup hd second ;;
     ret (hd1, hd2)) w = (Returns (hd1, hd2), w2)
    /\ path hd w2 = path hd w
    /\ path hd2 w2 = path hd w ++ [second]
    /\ path hd1 w2 = path hd w ++ [second]
    /\ Humanlog.Handle hd1 r w2 = (Returns None, w3)
    /\ written w3
       = written w
         ++ [(Writer.id wr,
              Humanlog.renderLine (Humanlog.Handler.opts hd)
                (bound hd w) (path hd w ++ [second]) r)].
Proof.
  intros Hm Hwf Hspare Hen.
  pose proof Hm as (Hj & Hw & Hf).
  assert (Hbase : exists a, Slice.base (Humanlog.Handler.groups hd) = Some a).
  { destruct Hwf as [_ Hg]. unfold Slice.valid in Hg.
    destruct (Slice.base (Humanlog.Handler.groups hd)) as [a|]; [eauto|].
    destruct Hg as [Hl Hc]. lia. }
  destruct Hbase as [a Hbase].
  destruct (WithGroup_text hd wr first w Hm Hwf)
    as (hd1 & w1 & E1 & Hm1 & Hwf1 & Ho1 & Hh1 & Hb1 & Hp1 & Hwr1 & Hwfp1 & Hbp1 & Hpp1).
  destruct (WithGroup_text hd wr second w1 Hm Hwfp1)
    as (hd2 & w2 & E2 & Hm2 & Hwf2 & Ho2 & Hh2 & Hb2 & Hp2 & Hwr2 & Hwfp2 & Hbp2 & Hpp2).
  pose proof E1 as S1. rewrite (WithGroup_text_slices hd first w Hj) in S1.
  pose proof E2 as S2. rewrite (WithGroup_text_slices hd second w1 Hj) in S2.
  injection S1 as S1 _. injection S2 as S2 W2.
  rewrite (append_in_place EmptyString _ _ [first] a Hbase) in S1 by (simpl; lia).
  rewrite (append_in_place EmptyString _ _ [second] a Hbase) in S2 by (simpl; lia).
  assert (Hsame : path hd1 w2 = path hd2 w2).
  { unfold path. rewrite <- S1, <- S2. reflexivity. }
  assert (Hbound : bound hd1 w2 = bound hd w).
  { rewrite <- Hb1. unfold bound. rewrite <- W2. reflexivity. }
  destruct (Handle_text hd1 wr r w2 Hm1) as (w3 & E3 & Hout & _).
  { rewrite (enabled_same_wrapped _ _ _ Hh1). exact Hen. }
  exists hd1, hd2, w2, w3.
  split.
  { rewrite (bind_returns _ _ _ _ _ E1), (bind_returns _ _ _ _ _ E2). reflexivity. }
  split; [congruence|].
  split; [congruence|].
  split; [congruence|].
  split; [exact E3|].
  rewrite Hout, Hwr2, Hwr1, Ho1, Hsame, Hp2, Hpp1, Hbound. reflexivity.
Qed.

End SharedGroups.

Lemma poolHandler_wellFormed : wellFormed poolHandler poolWorld.
Proof.
  split; [apply valid_null|].
  exists ["app"; "db"; "pool"; ""].
  split; [reflexivity|]. split; [reflexivity|]. simpl. lia.
Qed.

Section SharedGroupsExample.
#[local] Existing Instance exampleRuntime.

Lemma sibling_group_overwritten_witness :
  run (hd <- construct (Some sink) (Some textOptions) ;;
       hd1 <- Humanlog.WithGroup hd "app" ;;
       hd2 <- Humanlog.WithGroup hd1 "db" ;;
       Humanlog.WithGroup hd2 "pool")
  = (Returns poolHandler, poolWorld)
  /\ textMode poolHandler sink
  /\ wellFormed poolHandler poolWorld
  /\ (Slice.len (Humanlog.Handler.groups poolHandler)
      < Slice.cap (Humanlog.Handler.groups poolHandler))%nat
  /\ Humanlog.Enabled poolHandler (LogRecord.Level (infoRecord 0 "m" [String_ "k" "v"]))
     = true
  /\ exists hd1 hd2 w2 w3,
       (hd1 <- Humanlog.WithGroup poolHandler "read" ;;
        hd2 <- Humanlog.WithGroup poolHandler "write" ;;
        ret (hd1, hd2)) poolWorld = (Returns (hd1, hd2), w2)
       /\ path poolHandler w2 = path poolHandler poolWorld
       /\ path hd2 w2 = path poolHandler poolWorld ++ ["write"]
       /\ path hd1 w2 = path poolHandler poolWorld ++ ["write"]
       /\ Humanlog.Handle hd1 (infoRecord 0 "m" [String_ "k" "v"]) w2 = (Returns None, w3)
       /\ written w3
          = written poolWorld
            ++ [(Writer.id sink,
                 Humanlog.renderLine (Humanlog.Handler.opts poolHandler)
                   (bound poolHandler poolWorld)
                   (path poolHandler poolWorld ++ ["write"])
                   (infoRecord 0 "m" [String_ "k" "v"]))].
Proof.
  split; [vm_compute; reflexivity|].
  split; [repeat split|].
  split; [exact poolHandler_wellFormed|].
  split; [simpl; lia|].
  split; [reflexivity|].
  apply (@sibling_group_overwritten exampleRuntime poolHandler sink
           "read" "write" (infoRecord 0 "m" [String_ "k" "v"]) poolWorld).
  - repeat split.
  - exact poolHandler_wellFormed.
  - simpl; lia.
  - reflexivity.
Defined.

End SharedGroupsExample.

(** ** The earlier revision: derived handlers own their arrays *)

Section FreshArrays.
Context {A : Type} (zero : A) `{GoRuntime}.

(** [append] on a slice of the array allocated last, with room for the
    new elements: that array is rewritten and no other. *)
Lemma append_fresh (hp : list (list A)) (arr xs : list A) (k c : nat) :
  (k + length xs <= c)%nat ->
  Slice.append zero (hp ++ [arr]) (Slice.mk (Some (length hp)) k c) xs
  = (Slice.mk (Some (length hp)) (k + length xs) c,
     hp ++ [take k arr ++ xs ++ drop (k + length xs) arr]).
Proof.
  intros Hfit. unfold Slice.append. simpl.
  destruct (Nat.leb_spec (k + length xs) c) as [_|Hbad]; [|lia].
  f_equal.
  rewrite alter_app_r_alt by lia.
  rewrite Nat.sub_diag. reflexivity.
Qed.

Lemma copy_fresh (hp : list (list A)) (src : list A) (c : nat) :
  Slice.copy (hp ++ [replicate (length src) zero])
    (Slice.mk (Some (length hp)) (length src) c) src
  = hp ++ [src].
Proof.
  unfold Slice.copy. simpl.
  rewrite alter_app_r_alt by lia.
  rewrite Nat.sub_diag. simpl.
  rewrite drop_ge by (rewrite length_replicate; lia).
  rewrite app_nil_r. reflexivity.
Qed.

Lemma read_fresh (hp : list (list A)) (xs : list A) (c : nat) :
  Slice.read (hp ++ [xs]) (Slice.mk (Some (length hp)) (length xs) c) = xs.
Proof.
  unfold Slice.read. simpl.
  rewrite lookup_app_r by lia. rewrite Nat.sub_diag. simpl.
  apply take_ge. lia.
Qed.

End FreshArrays.

Section EarlierRevisionArrays.
Context `{GoRuntime}.

Lemma appendPrefixed_fresh (group : string) (hp : list (list Attr.t))
    (gp : list (list string)) (wr : list (nat * string)) (st : list Step)
    (c : nat) (attrs : list Attr.t) :
  forall (k : nat) (arr : list Attr.t),
    (k + length attrs <= c)%nat ->
    (k + length attrs <= length arr)%nat ->
    Legacy.appendPrefixed group (Slice.mk (Some (length hp)) k c) attrs
      (mkWorld (hp ++ [arr]) gp wr st)
    = (Returns (Slice.mk (Some (length hp)) (k + length attrs) c),
       mkWorld
         (hp ++ [take k arr ++ (underGroup group <$> attrs)
                 ++ drop (k + length attrs) arr]) gp wr st).
Proof.
  induction attrs as [|attr rest IH]; intros k arr Hfit Hlen.
  - simpl. rewrite Nat.add_0_r. unfold ret. rewrite take_drop. reflexivity.
  - simpl in Hfit, Hlen.
    change (Legacy.appendPrefixed group (Slice.mk (Some (length hp)) k c) (attr :: rest))
      with (s' <- appendAttrSlice (Slice.mk (Some (length hp)) k c)
                    [underGroup group attr] ;;
            Legacy.appendPrefixed group s' rest).
    unfold bind, appendAttrSlice. simpl attrArrays.
    rewrite (append_fresh Attr.zero hp arr [underGroup group attr] k c) by (simpl; lia).
    simpl length. simpl groupArrays. simpl written. simpl steps.
    assert (Hk : length (take k arr) = k) by (rewrite length_take; lia).
    rewrite IH.
    2:{ lia. }
    2:{ rewrite !length_app, Hk, length_drop. simpl. lia. }
    replace (k + 1 + length rest)%nat with (k + S (length rest))%nat by lia.
    f_equal. f_equal. f_equal. f_equal.
    assert (Htake : take (k + 1)
                      (take k arr ++ [underGroup group attr] ++ drop (k + 1) arr)
                    = take k arr ++ [underGroup group attr]).
    { rewrite app_assoc. apply take_app_length'.
      rewrite length_app, Hk. reflexivity. }
    assert (Hdrop : drop (k + S (length rest))
                      (take k arr ++ [underGroup group attr] ++ drop (k + 1) arr)
                    = drop (k + S (length rest)) arr).
    { rewrite app_assoc, drop_app_ge by (rewrite length_app, Hk; simpl; lia).
      rewrite length_app, Hk, drop_drop. simpl. f_equal. lia. }
    rewrite Htake, Hdrop, <- app_assoc. reflexivity.
Qed.

End EarlierRevisionArrays.

Section EarlierRevisionDerivations.
Context `{GoRuntime}.

Lemma boundUnder_length (groups : list string) (attrs : list Attr.t) :
  length (boundUnder groups attrs) = length attrs.
Proof.
  unfold boundUnder. destruct (0 <? length groups)%nat; [apply length_fmap | reflexivity].
Qed.

(** [WithAttrs] of the earlier revision, in full: two arrays are
    allocated and filled, and no array that existed is written. *)
Lemma Legacy_WithAttrs_eq (hd : Legacy.Handler.t) (attrs : list Attr.t) (w : World) :
  Legacy.WithAttrs hd attrs w
  = (Returns
       (Legacy.Handler.mk (Legacy.Handler.opts hd)
          (Slice.mk (Some (length (attrArrays w)))
             (length (boundL hd w) + length attrs)
             (length (boundL hd w) + length attrs))
          (Slice.mk (Some (length (groupArrays w)))
             (length (pathL hd w)) (length (pathL hd w)))),
     mkWorld
       (attrArrays w ++ [boundL hd w ++ boundUnder (pathL hd w) attrs])
       (groupArrays w ++ [pathL hd w]) (written w) (steps w)).
Proof.
  unfold Legacy.WithAttrs, boundL, pathL.
  set (hattrs := Slice.read (attrArrays w) (Legacy.Handler.attrs hd)).
  set (hgroups := Slice.read (groupArrays w) (Legacy.Handler.groups hd)).
  unfold bind at 1. unfold readGroups at 1. fold hgroups.
  unfold bind at 1. unfold readAttrs at 1. fold hattrs.
  unfold bind at 1. unfold Legacy.makeGroups at 1, Slice.make. simpl.
  unfold bind at 1. unfold Legacy.copyGroups at 1. simpl.
  rewrite copy_fresh.
  unfold bind at 1. unfold Legacy.makeAttrs at 1, Slice.make. simpl.
  unfold bind at 1. unfold appendAttrSlice at 1. simpl.
  rewrite (append_fresh Attr.zero (attrArrays w) _ hattrs 0
             (length hattrs + length attrs)) by (simpl; lia).
  simpl.
  rewrite drop_replicate.
  replace (length hattrs + length attrs - length hattrs)%nat
    with (length attrs) by lia.
  unfold bind at 1. unfold boundUnder.
  destruct (0 <? length hgroups)%nat.
  - rewrite appendPrefixed_fresh.
    2:{ lia. }
    2:{ rewrite length_app, length_replicate. lia. }
    unfold ret. f_equal. f_equal. f_equal. f_equal.
    rewrite take_app_length, drop_app_ge by lia.
    rewrite drop_ge by (rewrite length_replicate; lia).
    rewrite ?app_nil_r. reflexivity.
  - unfold appendAttrSlice. simpl.
    rewrite (append_fresh Attr.zero (attrArrays w) _ attrs (length hattrs)
               (length hattrs + length attrs)) by lia.
    unfold ret. f_equal. f_equal. f_equal. f_equal.
    rewrite take_app_length, drop_app_ge by lia.
    rewrite drop_ge by (rewrite length_replicate; lia).
    rewrite ?app_nil_r. reflexivity.
Qed.

(** [WithGroup] of the earlier revision with a name that is not empty. *)
Lemma Legacy_WithGroup_eq (hd : Legacy.Handler.t) (name : string) (w : World) :
  name <> "" ->
  Legacy.WithGroup hd name w
  = (Returns
       (Legacy.Handler.mk (Legacy.Handler.opts hd)
          (Slice.mk (Some (length (attrArrays w)))
             (length (boundL hd w)) (length (boundL hd w)))
          (Slice.mk (Some (length (groupArrays w)))
             (length (pathL hd w) + 1) (length (pathL hd w) + 1))),
     mkWorld
       (attrArrays w ++ [boundL hd w])
       (groupArrays w ++ [pathL hd w ++ [name]]) (written w) (steps w)).
Proof.
  intros Hname.
  unfold Legacy.WithGroup, boundL, pathL.
  destruct (String.eqb_spec name "") as [E|_]; [contradiction|].
  set (hattrs := Slice.read (attrArrays w) (Legacy.Handler.attrs hd)).
  set (hgroups := Slice.read (groupArrays w) (Legacy.Handler.groups hd)).
  unfold bind at 1. unfold readAttrs at 1. fold hattrs.
  unfold bind at 1. unfold readGroups at 1. fold hgroups.
  unfold bind at 1. unfold Legacy.makeAttrs at 1, Slice.make. simpl.
  unfold bind at 1. unfold Legacy.copyAttrs at 1. simpl.
  rewrite copy_fresh.
  unfold bind at 1. unfold Legacy.makeGroups at 1, Slice.make. simpl.
  unfold bind at 1. unfold appendGroupSlice at 1. simpl.
  rewrite (append_fresh EmptyString (groupArrays w) _ hgroups 0
             (length hgroups + 1)) by (simpl; lia).
  simpl.
  rewrite drop_replicate.
  replace (length hgroups + 1 - length hgroups)%nat with 1%nat by lia.
  unfold bind at 1. unfold appendGroupSlice. simpl.
  rewrite (append_fresh EmptyString (groupArrays w) _ [name] (length hgroups)
             (length hgroups + 1)) by (simpl; lia).
  unfold ret. simpl. f_equal. f_equal. f_equal. f_equal.
  rewrite take_app_length, drop_app_ge by (simpl; lia).
  rewrite drop_ge by (simpl; lia).
  rewrite ?app_nil_r. reflexivity.
Qed.

End EarlierRevisionDerivations.

Section EarlierRevisionProperties.
Context `{GoRuntime}.

Lemma read_fresh_eq {A : Type} (hp : list (list A)) (xs : list A) (n c : nat) :
  n = length xs ->
  Slice.read (hp ++ [xs]) (Slice.mk (Some (length hp)) n c) = xs.
Proof. intros ->. apply read_fresh. Qed.

Lemma Legacy_WithAttrs_binds_fresh
    (hd : Legacy.Handler.t) (attrs : list Attr.t) (w : World) :
  exists hd' w',
    Legacy.WithAttrs hd attrs w = (Returns hd', w')
    /\ boundL hd' w' = boundL hd w ++ boundUnder (pathL hd w) attrs
    /\ pathL hd' w' = pathL hd w
    /\ Legacy.Handler.opts hd' = Legacy.Handler.opts hd
    /\ written w' = written w.
Proof.
  do 2 eexists. split; [apply Legacy_WithAttrs_eq|].
  split.
  { unfold boundL at 1. simpl. apply read_fresh_eq.
    rewrite length_app, boundUnder_length. reflexivity. }
  split.
  { unfold pathL at 1. simpl. apply read_fresh_eq. reflexivity. }
  split; reflexivity.
Qed.

Lemma Legacy_WithGroup_fresh
    (hd : Legacy.Handler.t) (name : string) (w : World) :
  exists hd' w',
    Legacy.WithGroup hd name w = (Returns hd', w')
    /\ boundL hd' w' = boundL hd w
    /\ pathL hd' w'
       = (if String.eqb name "" then pathL hd w else pathL hd w ++ [name])
    /\ Legacy.Handler.opts hd' = Legacy.Handler.opts hd
    /\ written w' = written w.
Proof.
  destruct (String.eqb_spec name "") as [->|Hname].
  - exists hd, w. repeat split; reflexivity.
  - do 2 eexists. split; [apply Legacy_WithGroup_eq; exact Hname|].
    split.
    { unfold boundL at 1. simpl. apply read_fresh_eq. reflexivity. }
    split.
    { unfold pathL at 1. simpl. apply read_fresh_eq.
      rewrite length_app. reflexivity. }
    split; reflexivity.
Qed.

(** X12.  [WithAttrs] of the earlier revision allocates one attribute
    array and one group array for the handler it returns and writes into
    no array that existed: the arrays of the world are those that were
    there, followed by the two new ones.  The new handler shows the
    attributes of its parent followed by the new attributes, each with the
    parent's dot-joined group path before its key when the parent has a
    group, and the parent's group path; nothing is written to a sink. *)
Theorem Legacy_WithAttrs_binds_into_fresh_arrays
    (hd : Legacy.Handler.t) (attrs : list Attr.t) (w : World) :
  exists hd' w',
    Legacy.WithAttrs hd attrs w = (Returns hd', w')
    /\ attrArrays w' = attrArrays w ++ [boundL hd' w']
    /\ groupArrays w' = groupArrays w ++ [pathL hd' w']
    /\ boundL hd' w'
       = boundL hd w
         ++ (if (0 <? length (pathL hd w))%nat
             then (fun attr =>
                     Attr.mk (GoString.Join (pathL hd w) "." +:+ "." +:+ Attr.Key attr)
                       (Attr.Value attr)) <$> attrs
             else attrs)
    /\ pathL hd' w' = pathL hd w
    /\ Legacy.Handler.opts hd' = Legacy.Handler.opts hd
    /\ written w' = written w.
Proof.
  destruct (Legacy_WithAttrs_binds_fresh hd attrs w)
    as (hd' & w' & E & Hb & Hp & Ho & Hw).
  exists hd', w'. split; [exact E|].
  rewrite Legacy_WithAttrs_eq in E. injection E as <- <-.
  rewrite Hb, Hp. simpl.
  unfold boundUnder, underGroup. repeat split; reflexivity.
Qed.

(** X13.  [WithGroup] of the earlier revision returns its receiver, and
    leaves the world as it is, for the empty name.  For any other name
    it allocates two arrays and writes into none that existed; the new
    handler shows the attributes of its parent, keys unchanged, and the
    parent's group path followed by the name. *)
Theorem Legacy_WithGroup_enters_group_in_fresh_arrays
    (hd : Legacy.Handler.t) (name : string) (w : World) :
  exists hd' w',
    Legacy.WithGroup hd name w = (Returns hd', w')
    /\ Legacy.Handler.opts hd' = Legacy.Handler.opts hd
    /\ written w' = written w
    /\ if String.eqb name ""
       then hd' = hd /\ w' = w
       else attrArrays w' = attrArrays w ++ [boundL hd' w']
            /\ groupArrays w' = groupArrays w ++ [pathL hd' w']
            /\ boundL hd' w' = boundL hd w
            /\ pathL hd' w' = pathL hd w ++ [name].
Proof.
  destruct (Legacy_WithGroup_fresh hd name w)
    as (hd' & w' & E & Hb & Hp & Ho & Hw).
  exists hd', w'. split; [exact E|]. split; [exact Ho|]. split; [exact Hw|].
  destruct (String.eqb_spec name "") as [->|Hname].
  - injection E as <- <-. split; reflexivity.
  - rewrite (Legacy_WithGroup_eq hd name w Hname) in E. injection E as <- <-.
    rewrite Hb, Hp. simpl. repeat split; reflexivity.
Qed.

Lemma legacyDerive_state (ds : list Humanlog.derivation) :
  forall (hd : Legacy.Handler.t) (w : World),
    exists hd' w',
      legacyDerive hd ds w = (Returns hd', w')
      /\ Legacy.Handler.opts hd' = Legacy.Handler.opts hd
      /\ written w' = written w
      /\ boundL hd' w' = boundL hd w ++ legacyAttrsOf (pathL hd w) ds.
Proof.
  induction ds as [|d ds IH]; intros hd w.
  - exists hd, w. simpl. rewrite app_nil_r. repeat split; reflexivity.
  - destruct d as [attrs|name]; simpl.
    + destruct (Legacy_WithAttrs_binds_fresh hd attrs w)
        as (hd1 & w1 & E1 & Hb1 & Hp1 & Ho1 & Hw1).
      destruct (IH hd1 w1) as (hd2 & w2 & E2 & Ho2 & Hw2 & Hb2).
      exists hd2, w2. rewrite (bind_returns _ _ _ _ _ E1).
      split; [exact E2|]. split; [congruence|]. split; [congruence|].
      rewrite Hb2, Hb1, Hp1, <- app_assoc. reflexivity.
    + destruct (Legacy_WithGroup_fresh hd name w)
        as (hd1 & w1 & E1 & Hb1 & Hp1 & Ho1 & Hw1).
      destruct (IH hd1 w1) as (hd2 & w2 & E2 & Ho2 & Hw2 & Hb2).
      exists hd2, w2. rewrite (bind_returns _ _ _ _ _ E1).
      split; [exact E2|]. split; [congruence|]. split; [congruence|].
      rewrite Hb2, Hb1, Hp1. reflexivity.
Qed.

Lemma Legacy_Handle_writes
    (hd : Legacy.Handler.t) (wr : Writer.t) (r : LogRecord.t) (w : World) :
  Legacy.Options.Writer (Legacy.Handler.opts hd) = Some wr ->
  exists w',
    Legacy.Handle hd r w = (Returns (Writer.failure wr), w')
    /\ written w'
       = written w
         ++ match Writer.failure wr with
            | None => [(Writer.id wr,
                        Legacy.renderLine (Legacy.Handler.opts hd) (boundL hd w) r)]
            | Some _ => []
            end
    /\ attrArrays w' = attrArrays w /\ groupArrays w' = groupArrays w.
Proof.
  intros Hw.
  unfold Legacy.Handle, bind, step, readAttrs, WriteString, ret. simpl.
  rewrite Hw.
  destruct (Writer.failure wr) as [e|];
    simpl; eexists; (split; [reflexivity|]); simpl;
    rewrite ?app_nil_r; auto.
Qed.

(** X14.  Take a handler from [NewHandler] of the earlier revision and
    derive another from it by any chain of [WithAttrs] and [WithGroup]
    calls.  [Handle] of the result does not look at the level: every
    record, also one below the configured level, is written as one line
    to the sink given to [NewHandler] and the error of the sink is
    returned.  The line shows the attributes given to [WithAttrs] in call
    order, each under the group names that had been entered before it was
    bound, and the record's own attributes with no group before their
    keys; deriving writes nothing. *)
Theorem Legacy_derived_handler_line
    (wr : Writer.t) (level : Z) (optWriter : option Writer.t)
    (timeLayout : string) (disableColor : bool)
    (ds : list Humanlog.derivation) (r : LogRecord.t) (w : World) :
  let o := Legacy.Options.mk level optWriter timeLayout disableColor in
  exists hd0 hd w1 w2,
    Legacy.NewHandler (Some wr) (Some o) = Returns hd0
    /\ legacyDerive hd0 ds w = (Returns hd, w1)
    /\ written w1 = written w
    /\ Legacy.Handle hd r w1 = (Returns (Writer.failure wr), w2)
    /\ written w2
       = written w
         ++ match Writer.failure wr with
            | None =>
                [(Writer.id wr,
                  Legacy.renderLine (Legacy.Handler.opts hd0)
                    (legacyAttrsOf [] ds) r)]
            | Some _ => []
            end.
Proof.
  intros o.
  set (hd0 := Legacy.Handler.mk
                (Legacy.Options.mk level (Some wr) timeLayout disableColor)
                Slice.null Slice.null).
  destruct (legacyDerive_state ds hd0 w) as (hd & w1 & E & Ho & Hwr & Hb).
  destruct (Legacy_Handle_writes hd wr r w1) as (w2 & E2 & Hout & _).
  { rewrite Ho. reflexivity. }
  exists hd0, hd, w1, w2.
  split; [reflexivity|]. split; [exact E|]. split; [exact Hwr|].
  split; [exact E2|].
  rewrite Hout, Hwr, Hb, Ho. reflexivity.
Qed.

End EarlierRevisionProperties.

(** ** The quoting test seen from the bytes *)

Section QuotingBytes.
Import GoString Strconv Quoting.

Lemma lor_high_l (a b : Z) : 128 <= a -> 0 <= b -> 128 <= Z.lor a b.
Proof.
  intros Ha Hb.
  assert (L : 7 <= Z.log2 (Z.lor a b)).
  { rewrite Z.log2_lor by lia.
    pose proof (Z.log2_le_mono 128 a Ha) as M. change (Z.log2 128) with 7 in M. lia. }
  assert (P : 0 < Z.lor a b).
  { destruct (Z.lt_trichotomy 0 (Z.lor a b)) as [?|[E|N]]; [assumption| |].
    - rewrite <- E in L. simpl in L. lia.
    - rewrite (Z.log2_nonpos (Z.lor a b)) in L by lia. lia. }
  apply (Z.log2_le_pow2 (Z.lor a b) 7 P) in L. exact L.
Qed.

Lemma lor_high_r (a b : Z) : 0 <= a -> 128 <= b -> 128 <= Z.lor a b.
Proof. intros. rewrite Z.lor_comm. apply lor_high_l; assumption. Qed.

Lemma high_not_special (r : Z) : 128 <= r -> specialRune r = false.
Proof.
  intros Hr. unfold specialRune.
  repeat match goal with
         | |- context [?x <=? ?y] => destruct (Z.leb_spec x y); try lia
         | |- context [?x =? ?y] => destruct (Z.eqb_spec x y); try lia
         end.
Qed.

Lemma between_spec (lo hi b : Z) : between lo hi b = true <-> lo <= b <= hi.
Proof. unfold between. rewrite andb_true_iff, !Z.leb_le. tauto. Qed.


Lemma secondRange_high (b0 : Z) : 128 <= (secondRange b0).1.
Proof.
  unfold secondRange.
  repeat match goal with
         | |- context [?x =? ?y] => destruct (x =? y)
         end; simpl; lia.
Qed.

Ltac fields :=
  change 63 with (Z.ones 6); change 31 with (Z.ones 5);
  change 15 with (Z.ones 4); change 7 with (Z.ones 3);
  rewrite ?Z.land_ones, ?Z.shiftl_mul_pow2 by lia;
  change (2 ^ 3) with 8; change (2 ^ 4) with 16; change (2 ^ 5) with 32;
  change (2 ^ 6) with 64; change (2 ^ 12) with 4096;
  change (2 ^ 18) with 262144.

Ltac arith := Z.div_mod_to_equations; lia.

Lemma rune2_high (b0 b1 : Z) :
  194 <= b0 <= 223 ->
  128 <= Z.lor (Z.shiftl (Z.land b0 31) 6) (Z.land b1 63).
Proof. intros. fields. apply lor_high_l; arith. Qed.

Lemma rune3_high (b0 b1 b2 : Z) :
  224 <= b0 <= 239 ->
  (secondRange b0).1 <= b1 <= (secondRange b0).2 ->
  128 <= Z.lor (Z.shiftl (Z.land b0 15) 12)
           (Z.lor (Z.shiftl (Z.land b1 63) 6) (Z.land b2 63)).
Proof.
  intros Hb0 Hb1. destruct (Z.eq_dec b0 224) as [->|Hne].
  - change (secondRange 224) with (160, 191) in Hb1. simpl in Hb1.
    fields. apply lor_high_r; [arith|]. apply lor_high_l; arith.
  - fields. apply lor_high_l; [arith|].
    apply Z.lor_nonneg. split; arith.
Qed.

Lemma rune4_high (b0 b1 b2 b3 : Z) :
  240 <= b0 <= 244 ->
  (secondRange b0).1 <= b1 <= (secondRange b0).2 ->
  128 <= Z.lor (Z.shiftl (Z.land b0 7) 18)
           (Z.lor (Z.shiftl (Z.land b1 63) 12)
              (Z.lor (Z.shiftl (Z.land b2 63) 6) (Z.land b3 63))).
Proof.
  intros Hb0 Hb1. destruct (Z.eq_dec b0 240) as [->|Hne].
  - change (secondRange 240) with (144, 191) in Hb1. simpl in Hb1.
    fields. apply lor_high_r; [arith|]. apply lor_high_l; [arith|].
    apply Z.lor_nonneg. split; arith.
  - fields. apply lor_high_l; [arith|].
    apply Z.lor_nonneg. split; [arith|]. apply Z.lor_nonneg. split; arith.
Qed.

Lemma DecodeRune_scan (b0 : Z) (rest : list Z) :
  specialRune (DecodeRune (b0 :: rest)).1 = specialRune b0
  /\ Forall (fun b => 128 <= b) (take ((DecodeRune (b0 :: rest)).2 - 1) rest).
Proof.
  pose proof (secondRange_high b0) as Hlo.
  unfold DecodeRune. destruct (secondRange b0) as [lo hi] eqn:R.
  simpl in Hlo.
  destruct (Z.ltb_spec b0 128) as [Hlow|Hhigh].
  { split; [reflexivity|constructor]. }
  rewrite (high_not_special b0 Hhigh).
  assert (Bad : specialRune (RuneError, 1%nat).1 = false
                /\ Forall (fun b => 128 <= b) (take ((RuneError, 1%nat).2 - 1) rest)).
  { split; [reflexivity|constructor]. }
  destruct (between 194 223 b0) eqn:T2.
  { apply between_spec in T2.
    destruct rest as [|b1 rest1]; [exact Bad|].
    destruct (between lo hi b1) eqn:B1; [|exact Bad].
    apply between_spec in B1. split.
    - apply high_not_special. apply rune2_high. exact T2.
    - simpl. repeat constructor. lia. }
  destruct (between 224 239 b0) eqn:T3.
  { apply between_spec in T3.
    destruct rest as [|b1 [|b2 rest2]]; [exact Bad|exact Bad|].
    destruct (between lo hi b1) eqn:B1; [|exact Bad].
    destruct (between 128 191 b2) eqn:B2; [|exact Bad].
    apply between_spec in B1, B2. split.
    - apply high_not_special. apply rune3_high; [exact T3|]. rewrite R. exact B1.
    - simpl. repeat constructor; lia. }
  destruct (between 240 244 b0) eqn:T4.
  { apply between_spec in T4.
    destruct rest as [|b1 [|b2 [|b3 rest3]]]; [exact Bad|exact Bad|exact Bad|].
    destruct (between lo hi b1) eqn:B1; [|exact Bad].
    destruct (between 128 191 b2) eqn:B2; [|exact Bad].
    destruct (between 128 191 b3) eqn:B3; [|exact Bad].
    apply between_spec in B1, B2, B3. split.
    - apply high_not_special. apply rune4_high; [exact T4|]. rewrite R. exact B1.
    - simpl. repeat constructor; lia. }
  exact Bad.
Qed.

Lemma runesFrom_scan (p : list Z) :
  forall skip : nat,
    Forall (fun b => 128 <= b) (take skip p) ->
    existsb specialRune (runesFrom skip p)
    = existsb specialRune p.
Proof.
  induction p as [|b0 rest IH]; intros skip Hskip; [reflexivity|].
  destruct skip as [|k].
  - change (runesFrom 0 (b0 :: rest))
      with (let '(r, w) := DecodeRune (b0 :: rest) in r :: runesFrom (w - 1) rest).
    destruct (DecodeRune_scan b0 rest) as [Hr Hw].
    destruct (DecodeRune (b0 :: rest)) as [r w]. simpl in Hr, Hw.
    simpl. rewrite Hr, (IH _ Hw). reflexivity.
  - simpl in Hskip. inversion Hskip as [|? ? Hb Hrest]; subst.
    simpl. rewrite (high_not_special b0 Hb), (IH _ Hrest). reflexivity.
Qed.

(** X15.  The loop of [needsQuoting] ranges over the runes of the
    string, but what it decides can be read off the bytes: some rune
    meets the condition of the loop exactly when some byte does.  This
    holds for every byte string, valid UTF-8 or not: a multi-byte
    character and the replacement rune of a malformed sequence are never
    special, and neither is any byte of theirs. *)
Theorem quoting_scan_is_bytewise (s : string) :
  existsb specialRune (runes s)
  = existsb specialRune (bytes s).
Proof. apply runesFrom_scan. constructor. Qed.

Lemma specialRune_cases (c : Z) :
  specialRune c = true ->
  c <= 32 \/ c = 61 \/ c = 34 \/ c = 39 \/ c = 96 \/ c = 91 \/ c = 93
  \/ c = 123 \/ c = 125.
Proof.
  unfold specialRune. rewrite !orb_true_iff, Z.leb_le, !Z.eqb_eq. tauto.
Qed.

Lemma plain_range (lo hi c : Z) :
  32 < lo -> lo <= c <= hi ->
  (hi < 34 \/ 34 < lo) -> (hi < 39 \/ 39 < lo) -> (hi < 61 \/ 61 < lo) ->
  (hi < 91 \/ 91 < lo) -> (hi < 93 \/ 93 < lo) -> (hi < 96 \/ 96 < lo) ->
  (hi < 123 \/ 123 < lo) -> (hi < 125 \/ 125 < lo) ->
  specialRune c = false.
Proof.
  intros. destruct (specialRune c) eqn:E; [|reflexivity].
  apply specialRune_cases in E. lia.
Qed.

Ltac plain lo hi := apply (plain_range lo hi); lia.

Lemma lower_small (c : Z) : c <= 32 -> lower c < 64.
Proof.
  intros Hc. unfold lower.
  destruct (Z.lt_ge_cases c 0) as [Hneg|Hpos].
  - assert (Z.lor c 32 < 0) by (apply Z.lor_neg; lia). lia.
  - assert (P : 0 < Z.lor c 32).
    { pose proof (Z.add_lor_land c 32) as A.
      assert (0 <= Z.lor c 32) by (apply Z.lor_nonneg; lia).
      destruct (Z.eq_dec (Z.lor c 32) 0) as [Z0|]; [|lia].
      apply Z.lor_eq_0_iff in Z0. lia. }
    apply (Z.log2_lt_pow2 _ 6 P).
    rewrite Z.log2_lor by lia.
    pose proof (Z.log2_le_mono c 32 Hc) as M. change (Z.log2 32) with 5 in *. lia.
Qed.

(** A byte whose lower-case form is a letter is not special. *)
Lemma lower_letter_plain (c : Z) :
  97 <= lower c <= 122 -> specialRune c = false.
Proof.
  intros Hl. destruct (specialRune c) eqn:E; [|reflexivity].
  apply specialRune_cases in E.
  destruct E as [E|E].
  - apply lower_small in E. lia.
  - exfalso. repeat destruct E as [E|E]; subst c; vm_compute in Hl;
      destruct Hl as [H1 H2]; first [apply H1; reflexivity | apply H2; reflexivity].
Qed.

Lemma isDigit_plain (c : Z) : isDigit c = true -> specialRune c = false.
Proof. unfold isDigit. rewrite between_spec. intros. plain 48 57. Qed.

Lemma isHexLetter_plain (c : Z) :
  isHexLetter c = true -> specialRune c = false.
Proof.
  unfold isHexLetter. rewrite between_spec. intros.
  apply lower_letter_plain. lia.
Qed.

Lemma scanMantissa_plain (hex : bool) (s : list Z) :
  forall m m' unread,
    scanMantissa hex m s = (m', unread) ->
    existsb specialRune s = existsb specialRune unread.
Proof.
  induction s as [|c rest IH]; intros m m' unread E; simpl in E.
  - injection E as _ <-. reflexivity.
  - destruct (Z.eqb_spec c 95) as [->|N95].
    { apply IH in E. simpl. exact E. }
    destruct (Z.eqb_spec c 46) as [->|N46].
    { destruct (sawdot m).
      - injection E as _ <-. reflexivity.
      - apply IH in E. simpl. exact E. }
    destruct (isDigit c) eqn:D.
    { apply IH in E. simpl. rewrite (isDigit_plain c D). exact E. }
    destruct (hex && isHexLetter c) eqn:X.
    { apply andb_true_iff in X as [_ X].
      apply IH in E. simpl. rewrite (isHexLetter_plain c X). exact E. }
    injection E as _ <-. reflexivity.
Qed.

Lemma scanExponent_plain (s : list Z) :
  forall e us e' us' unread,
    scanExponent e us s = (e', us', unread) ->
    existsb specialRune s = existsb specialRune unread.
Proof.
  induction s as [|c rest IH]; intros e us e' us' unread E; simpl in E.
  - injection E as _ _ <-. reflexivity.
  - destruct (Z.eqb_spec c 95) as [->|N95].
    { apply IH in E. simpl. exact E. }
    destruct (isDigit c) eqn:D.
    { apply IH in E. simpl. rewrite (isDigit_plain c D). exact E. }
    injection E as _ _ <-. reflexivity.
Qed.

Lemma readExponent_plain (hex us : bool) (s : list Z) e us' unread :
  readExponent hex us s = Some (e, us', unread) ->
  existsb specialRune s = existsb specialRune unread.
Proof.
  unfold readExponent. destruct s as [|c rest].
  { destruct hex; [discriminate|]. intros [= _ _ <-]. reflexivity. }
  destruct (Z.eqb_spec (lower c) (if hex then 112 else 101)) as [L|N].
  - assert (Pc : specialRune c = false).
    { apply lower_letter_plain. destruct hex; lia. }
    destruct rest as [|c1 rest1]; [discriminate|].
    destruct (Z.eqb_spec c1 43) as [->|N43].
    { destruct rest1 as [|d rest2]; [discriminate|].
      destruct (isDigit d) eqn:D; [|discriminate].
      destruct (scanExponent 0 us (d :: rest2)) as [[e0 us0] un0] eqn:S.
      intros [= _ _ <-]. apply scanExponent_plain in S.
      change (existsb specialRune (c :: 43 :: d :: rest2))
        with (specialRune c || (false || existsb specialRune (d :: rest2))).
      rewrite Pc, S. reflexivity. }
    destruct (Z.eqb_spec c1 45) as [->|N45].
    { destruct rest1 as [|d rest2]; [discriminate|].
      destruct (isDigit d) eqn:D; [|discriminate].
      destruct (scanExponent 0 us (d :: rest2)) as [[e0 us0] un0] eqn:S.
      intros [= _ _ <-]. apply scanExponent_plain in S.
      change (existsb specialRune (c :: 45 :: d :: rest2))
        with (specialRune c || (false || existsb specialRune (d :: rest2))).
      rewrite Pc, S. reflexivity. }
    destruct (isDigit c1) eqn:D; [|discriminate].
    destruct (scanExponent 0 us (c1 :: rest1)) as [[e0 us0] un0] eqn:S.
    intros [= _ _ <-]. apply scanExponent_plain in S.
    change (existsb specialRune (c :: c1 :: rest1))
      with (specialRune c || existsb specialRune (c1 :: rest1)).
    rewrite Pc, S. reflexivity.
  - destruct hex; [discriminate|]. intros [= _ _ <-]. reflexivity.
Qed.

Lemma dropSign_plain (s : list Z) :
  existsb specialRune s = existsb specialRune (dropSign s).
Proof.
  destruct s as [|c rest]; [reflexivity|]. simpl.
  destruct (Z.eqb_spec c 45) as [->|N45]; [reflexivity|].
  destruct (Z.eqb_spec c 43) as [->|N43]; reflexivity.
Qed.

Lemma readFloat_plain (s : list Z) (n : numeral) :
  readFloat s = Some n -> existsb specialRune s = false.
Proof.
  unfold readFloat. destruct s as [|c s']; [discriminate|].
  rewrite (dropSign_plain (c :: s')).
  set (body := dropSign (c :: s')).
  assert (Hd : forall hex digits,
             existsb specialRune body = existsb specialRune digits ->
             (let '(m, unread) :=
                scanMantissa hex (Mantissa false false false 0 0) digits in
              if negb (sawdigits m) then None
              else
                match readExponent hex (underscores m) unread with
                | Some (e, us, []) =>
                    if us && negb (underscoreOK (c :: s')) then None
                    else Some (Numeral hex (mant m) (frac m) e)
                | _ => None
                end) = Some n ->
             existsb specialRune body = false).
  { intros hex digits Hb.
    destruct (scanMantissa hex (Mantissa false false false 0 0) digits)
      as [m unread] eqn:S.
    apply scanMantissa_plain in S.
    destruct (negb (sawdigits m)); [discriminate|].
    destruct (readExponent hex (underscores m) unread) as [[[e us] un]|] eqn:X;
      [|discriminate].
    destruct un; [|discriminate].
    apply readExponent_plain in X. intros _.
    rewrite Hb, S, X. reflexivity. }
  destruct body as [|c0 [|c1 [|c2 rest]]]; try (apply (Hd false); reflexivity).
  destruct ((c0 =? 48) && (lower c1 =? 120)) eqn:P.
  - apply andb_true_iff in P as [P0 P1].
    apply Z.eqb_eq in P0, P1. subst c0.
    apply (Hd true).
    change (existsb specialRune (48 :: c1 :: c2 :: rest))
      with (specialRune c1 || existsb specialRune (c2 :: rest)).
    rewrite (lower_letter_plain c1) by lia. reflexivity.
  - apply (Hd false). reflexivity.
Qed.

Lemma commonPrefix_plain (prefix : list Z) :
  Forall (fun p => 97 <= p <= 122) prefix ->
  forall s : list Z,
    (length s <= commonPrefixLenIgnoreCase s prefix)%nat ->
    existsb specialRune s = false.
Proof.
  induction 1 as [|p prefix Hp _ IH]; intros s Hs.
  - destruct s; [reflexivity|]. simpl in Hs. lia.
  - destruct s as [|c s']; [reflexivity|]. simpl in Hs.
    destruct (between 65 90 c) eqn:U.
    + apply between_spec in U.
      destruct (c + 32 =? p); [|lia].
      simpl. rewrite (IH s') by lia.
      rewrite (plain_range 65 90 c) by lia. reflexivity.
    + destruct (Z.eqb_spec c p) as [->|]; [|lia].
      simpl. rewrite (IH s') by lia.
      rewrite (plain_range 97 122 p) by lia. reflexivity.
Qed.

Lemma letters_infinity : Forall (fun p => 97 <= p <= 122) (bytes "infinity").
Proof. repeat constructor; vm_compute; discriminate. Qed.

Lemma letters_nan : Forall (fun p => 97 <= p <= 122) (bytes "nan").
Proof. repeat constructor; vm_compute; discriminate. Qed.

Lemma specialInf_plain (nsign : nat) (s : list Z) (n : nat) :
  specialInf nsign s = Some n ->
  (n = nsign + length s)%nat ->
  existsb specialRune s = false.
Proof.
  unfold specialInf. intros E Hn.
  apply (commonPrefix_plain _ letters_infinity).
  set (k := commonPrefixLenIgnoreCase s (bytes "infinity")) in *.
  destruct ((3 <? k)%nat && (k <? 8)%nat) eqn:A.
  - apply andb_true_iff in A as [A1 A2].
    apply Nat.ltb_lt in A1, A2.
    simpl in E. injection E as <-. lia.
  - destruct ((k =? 3)%nat || (k =? 8)%nat) eqn:B; [|discriminate].
    injection E as <-. lia.
Qed.

Lemma special_plain (s : list Z) (n : nat) :
  special s = Some n -> n = length s ->
  existsb specialRune s = false.
Proof.
  unfold special. destruct s as [|c rest]; [discriminate|].
  destruct ((c =? 43) || (c =? 45)) eqn:S.
  { intros E Hn. apply (specialInf_plain 1 rest n E) in Hn.
    apply orb_true_iff in S. rewrite !Z.eqb_eq in S.
    simpl. rewrite Hn. destruct S as [->| ->]; reflexivity. }
  destruct ((c =? 105) || (c =? 73)) eqn:I.
  { intros E Hn. apply (specialInf_plain 0 (c :: rest) n E). exact Hn. }
  destruct ((c =? 110) || (c =? 78)) eqn:N; [|discriminate].
  destruct (Nat.eqb_spec (commonPrefixLenIgnoreCase (c :: rest) (bytes "nan")) 3)
    as [K|]; [|discriminate].
  intros [= <-] Hn.
  apply (commonPrefix_plain _ letters_nan). rewrite K, <- Hn. reflexivity.
Qed.

Lemma ParseFloatOk_plain (s : string) :
  ParseFloatOk s = true -> existsb specialRune (bytes s) = false.
Proof.
  unfold ParseFloatOk.
  destruct (special (bytes s)) as [n|] eqn:S.
  - intros E. apply Nat.eqb_eq in E. exact (special_plain _ _ S E).
  - destruct (readFloat (bytes s)) as [n|] eqn:R; [|discriminate].
    intros _. exact (readFloat_plain _ _ R).
Qed.

Lemma reserved_not_float (s : string) :
  reservedLiteral s = true -> ParseFloatOk s = false.
Proof.
  unfold reservedLiteral. rewrite !orb_true_iff, !String.eqb_eq.
  intros [[-> | ->] | ->]; vm_compute; reflexivity.
Qed.

(** X16.  [needsQuoting] answers true exactly for the empty string, the
    three literals true, false and nil, and the strings that hold a
    special byte.  The number test between the first and the second of
    these never changes the answer: a string that ParseFloat accepts is
    not empty, is none of the three literals and holds no special
    byte. *)
Theorem quoting_decided_by_bytes (s : string) :
  needsQuoting s
  = String.eqb s "" || reservedLiteral s
    || existsb specialRune (bytes s).
Proof.
  unfold needsQuoting, needsQuotingWith.
  destruct (String.eqb s ""); [reflexivity|].
  destruct (ParseFloatOk s) eqn:F.
  - rewrite (ParseFloatOk_plain s F).
    destruct (reservedLiteral s) eqn:L; [|reflexivity].
    apply reserved_not_float in L. congruence.
  - destruct (reservedLiteral s); [reflexivity|].
    apply runesFrom_scan. constructor.
Qed.

End QuotingBytes.

(** ** The two revisions side by side *)

Section Revisions.
Context `{GoRuntime}.

Lemma appendAttrs_no_group (disableColor : bool) (attrs : list Attr.t) :
  Humanlog.appendAttrs [] disableColor [] attrs
  = (fun a => Humanlog.formatAttr a disableColor) <$> attrs.
Proof.
  rewrite appendAttrs_spec. rewrite app_nil_l.
  apply list_fmap_ext. intros _ [k v] _. reflexivity.
Qed.

(** X17.  With no group entered, no source attribute and the message
    width left at 40 (or unset), the line of the current text handler and
    the line of the earlier revision are made of the same column and the
    same attribute texts.  They differ in one place: the current handler
    writes a space between the message column and the first attribute,
    the earlier revision writes none, so that a message that fills the
    column runs into the first key.  Without attributes the two lines
    are equal. *)
Theorem revisions_differ_in_separator
    (level : Z) (wr : option Writer.t) (timeLayout : string)
    (disableColor : bool) (width : Z) (bound : list Attr.t) (r : LogRecord.t) :
  width <= 0 \/ width = Humanlog.messageWidth ->
  let o := Options.mk level wr timeLayout disableColor false width false in
  let lo := Legacy.Options.mk level wr timeLayout disableColor in
  let attrs :=
    (fun a => Humanlog.formatAttr a disableColor) <$> (bound ++ LogRecord.Attrs r) in
  exists column : string,
    Legacy.renderLine lo bound r
    = match attrs with
      | [] => column +:+ Humanlog.newline
      | _ :: _ => (column +:+ GoString.Join attrs " ") +:+ Humanlog.newline
      end
    /\ Humanlog.renderLine o bound [] r
       = match attrs with
         | [] => column +:+ Humanlog.newline
         | _ :: _ =>
             (column +:+ " " +:+ GoString.Join attrs " ") +:+ Humanlog.newline
         end.
Proof.
  intros Hw o lo attrs.
  assert (Hm : Humanlog.formatMessage width (LogRecord.Message r)
               = GoString.SprintfPadRight Humanlog.messageWidth
                   (if Humanlog.messageWidth <? GoString.len (LogRecord.Message r)
                    then GoString.sliceTo (Humanlog.messageWidth - 3)
                           (LogRecord.Message r) +:+ "..."
                    else LogRecord.Message r)).
  { unfold Humanlog.formatMessage.
    destruct (Z.leb_spec width 0) as [Hle|Hgt].
    - reflexivity.
    - destruct Hw as [Hw|Hw]; [lia|]. rewrite Hw. reflexivity. }
  assert (Hl : Humanlog.appendSource o (LogRecord.PC r)
                 (fold_left
                    (fun acc attr => Humanlog.appendAttrs [] disableColor acc [attr])
                    (LogRecord.Attrs r)
                    (Humanlog.appendAttrs [] disableColor [] bound))
               = attrs).
  { rewrite record_attrs_fold, appendAttrs_no_group, appendAttrs_spec.
    unfold attrs. rewrite fmap_app. unfold Humanlog.appendSource. simpl.
    reflexivity. }
  eexists. split.
  - unfold Legacy.renderLine. simpl. fold attrs.
    destruct attrs; reflexivity.
  - unfold Humanlog.renderLine. simpl Options.DisableColor.
    rewrite Hl. simpl Options.MessageWidth. rewrite Hm.
    destruct attrs; reflexivity.
Qed.

End Revisions.

Lemma revisions_differ_in_separator_witness :
  exists column : string,
    @Legacy.renderLine exampleRuntime (Legacy.Options.mk 0 None "15:04:05" true)
      [String_ "a" "1"] (infoRecord 0 "m" [])
    = (column +:+ "a=1") +:+ Humanlog.newline
    /\ @Humanlog.renderLine exampleRuntime
         (Options.mk 0 None "15:04:05" true false 40 false)
         [String_ "a" "1"] [] (infoRecord 0 "m" [])
       = (column +:+ " a=1") +:+ Humanlog.newline.
Proof.
  exact (revisions_differ_in_separator (H := exampleRuntime) 0 None "15:04:05" true 40
           [String_ "a" "1"] (infoRecord 0 "m" []) (or_intror eq_refl)).
Defined.
